(** * pysddl: translating SDDL strings (sddl.py)

    A shallow embedding of [sddl.py]: the code tables [ACCESS], [TRUSTEE]
    and [SDDL_TYPE], the compiled patterns [re_owner], [re_group], [re_acl],
    [re_perms], [re_type], [re_const], [re_non_acl], the constructor of
    [ACE] and the constructor of [SDDL].

    Python values are modelled as follows.
    - [str] (a Python 2 byte string) is [string]; comparison of two [str]
      is the byte-wise lexicographic order [String.le].
    - A [dict] with string keys is a [gmap string string].  Subscripting
      [d[k]] raises [KeyError] on an absent key, [k in d] tests presence.
    - An exception is a value of [exn]; a computation that may raise is a
      value of [res].
    - The module-level dictionary [ACCESS] is one object.  The constructor
      of [SDDL] binds [self.ACCESS] to that very object, so an assignment
      [self.ACCESS[k] = v] writes to the module-level table.  The content
      of that object is the state threaded through [SDDL_init].
    - [TranslateSid] asks WMI for an account; WMI is a section variable. *)

From Stdlib Require Import Ascii.
From stdpp Require Import gmap strings list fin_maps sorting.

Local Open Scope char_scope.
Local Open Scope stdpp_scope.

(** ** Exceptions and results *)

Inductive exn : Type :=
  | KeyError (key : string)
  | AttributeError
  | InvalidSddlStringError
  | InvalidSddlTypeError
  | InvalidAceStringError.

Inductive res (A : Type) : Type :=
  | Ok (a : A)
  | Raise (e : exn).
Arguments Ok {A} a.
Arguments Raise {A} e.

#[global] Instance res_ret : MRet res := fun _ a => Ok a.

#[global] Instance res_bind : MBind res := fun _ _ f m =>
  match m with
  | Ok a => f a
  | Raise e => Raise e
  end.

(** ** The part of Python's [re] that the module uses

    Patterns are matched by backtracking, the alternative tried first
    wins: a quantifier is greedy and gives characters back one at a time.
    Every quantifier of the module is applied to a character class. *)

Inductive regex : Type :=
  | Bol                          (* ^ *)
  | Eol                          (* $ *)
  | Cls (p : ascii -> bool)      (* one character of a class, or a literal *)
  | Plus (p : ascii -> bool)     (* class+ *)
  | Star (p : ascii -> bool)     (* class* *)
  | Opt (p : ascii -> bool)      (* class? *)
  | Cat (r1 r2 : regex)
  | Ahead (r : regex)            (* (?=r) *)
  | Grp (r : regex).             (* (r), the pattern's capturing group *)

(** A position in the subject, the text still ahead, and the span of the
    capturing group when it has been closed. *)
Record mstate : Type := MState {
  m_pos : nat;
  m_rest : string;
  m_grp : option (nat * nat)
}.

Definition kont : Type := mstate -> option mstate.

(** [class+] followed by [k]: take a character, then first try to take
    more, and only then try [k]. *)
Fixpoint plus_loop (p : ascii -> bool) (k : kont) (pos : nat)
    (g : option (nat * nat)) (s : string) : option mstate :=
  match s with
  | String c s' =>
      if p c then
        match plus_loop p k (S pos) g s' with
        | Some st => Some st
        | None => k (MState (S pos) s' g)
        end
      else None
  | EmptyString => None
  end.

(** [$] without MULTILINE: the end of the subject, or just before a line
    feed that is its last character. *)
Definition at_eol (s : string) : bool :=
  match s with
  | EmptyString => true
  | String c EmptyString => Ascii.eqb c "010"
  | _ => false
  end.

(** One character of the class [p], then [k]. *)
Definition one_char (p : ascii -> bool) (k : kont) (st : mstate)
    : option mstate :=
  match m_rest st with
  | String c s' =>
      if p c then k (MState (S (m_pos st)) s' (m_grp st)) else None
  | EmptyString => None
  end.

Fixpoint rmatch (r : regex) (st : mstate) (k : kont) : option mstate :=
  match r with
  | Bol => if Nat.eqb (m_pos st) 0 then k st else None
  | Eol => if at_eol (m_rest st) then k st else None
  | Cls p => one_char p k st
  | Plus p => plus_loop p k (m_pos st) (m_grp st) (m_rest st)
  | Star p =>
      match plus_loop p k (m_pos st) (m_grp st) (m_rest st) with
      | Some st' => Some st'
      | None => k st
      end
  | Opt p =>
      match one_char p k st with
      | Some st' => Some st'
      | None => k st
      end
  | Cat r1 r2 => rmatch r1 st (fun st' => rmatch r2 st' k)
  | Ahead r' =>
      match rmatch r' st Some with
      | Some _ => k st
      | None => None
      end
  | Grp r' =>
      rmatch r' st
        (fun st' => k (MState (m_pos st') (m_rest st')
                              (Some (m_pos st, m_pos st'))))
  end.

Fixpoint has_group (r : regex) : bool :=
  match r with
  | Grp _ => true
  | Cat r1 r2 => has_group r1 || has_group r2
  | Ahead r' => has_group r'
  | _ => false
  end.

(** A match object: where the match starts and the state at its end. *)
Record match_obj : Type := MatchObj {
  mo_subject : string;
  mo_start : nat;
  mo_end : mstate
}.

(** [m.group()] *)
Definition group (m : match_obj) : string :=
  String.substring (mo_start m) (m_pos (mo_end m) - mo_start m) (mo_subject m).

(** [re.match(r, s)]: a match at the start of [s] only. *)
Definition re_match (r : regex) (s : string) : option match_obj :=
  MatchObj s 0 <$> rmatch r (MState 0 s None) Some.

Fixpoint search_from (r : regex) (subject : string) (pos : nat) (s : string)
    : option match_obj :=
  match rmatch r (MState pos s None) Some with
  | Some st => Some (MatchObj subject pos st)
  | None =>
      match s with
      | String _ s' => search_from r subject (S pos) s'
      | EmptyString => None
      end
  end.

(** [re.search(r, s)]: the leftmost position of [s] with a match. *)
Definition re_search (r : regex) (s : string) : option match_obj :=
  search_from r s 0 s.

(** What [re.findall] lists for one match: the group's text when the
    pattern has a group, the whole match otherwise. *)
Definition findall_item (r : regex) (m : match_obj) : string :=
  if has_group r then
    match m_grp (mo_end m) with
    | Some (a, b) => String.substring a (b - a) (mo_subject m)
    | None => EmptyString
    end
  else group m.

(** [skip] characters belong to the previous match and are passed over. *)
Fixpoint findall_from (r : regex) (subject : string) (skip pos : nat)
    (s : string) : list string :=
  match skip with
  | S n =>
      match s with
      | String _ s' => findall_from r subject n (S pos) s'
      | EmptyString => []
      end
  | O =>
      match rmatch r (MState pos s None) Some with
      | Some st =>
          findall_item r (MatchObj subject pos st) ::
          match s with
          | String _ s' =>
              findall_from r subject (m_pos st - pos - 1) (S pos) s'
          | EmptyString => []
          end
      | None =>
          match s with
          | String _ s' => findall_from r subject 0 (S pos) s'
          | EmptyString => []
          end
      end
  end.

(** [re.findall(r, s)]: the matches that do not overlap, left to right. *)
Definition re_findall (r : regex) (s : string) : list string :=
  findall_from r s 0 0 s.

(** *** Character classes *)

Definition lit (c : ascii) : regex := Cls (Ascii.eqb c).

Definition one_of (cs : string) (c : ascii) : bool :=
  bool_decide (c ∈ String.list_ascii_of_string cs).

Definition none_of (cs : string) (c : ascii) : bool := negb (one_of cs c).

(** [.] matches anything but a line feed. *)
Definition dot (c : ascii) : bool := negb (Ascii.eqb c "010").

(** [\w] on a byte string: a letter, a digit or the underscore. *)
Definition word (c : ascii) : bool :=
  (Ascii.leb "a" c && Ascii.leb c "z")
  || (Ascii.leb "A" c && Ascii.leb c "Z")
  || (Ascii.leb "0" c && Ascii.leb c "9")
  || Ascii.eqb c "_".

Fixpoint cat_all (rs : list regex) : regex :=
  match rs with
  | [] => Cat (Star (fun _ => false)) (Star (fun _ => false))
  | [r] => r
  | r :: rs' => Cat r (cat_all rs')
  end.

(** *** The module's patterns *)

(* '^[ADO][ADLU]?\:\(.*\)$' *)
Definition re_valid_string : regex :=
  cat_all [Bol; Cls (one_of "ADO"); Opt (one_of "ADLU"); lit ":"; lit "(";
           Star dot; lit ")"; Eol].

(* '\(([^\(\)]+)\)' *)
Definition re_perms : regex :=
  cat_all [lit "("; Grp (Plus (none_of "()")); lit ")"].

(* '^[DOGS]' *)
Definition re_type : regex := cat_all [Bol; Cls (one_of "DOGS")].

(* '^O:[^:()]+(?=[DGS]:)' *)
Definition re_owner : regex :=
  cat_all [Bol; lit "O"; lit ":"; Plus (none_of ":()");
           Ahead (cat_all [Cls (one_of "DGS"); lit ":"])].

(* 'G:[^:()]+(?=[DOS]:)' *)
Definition re_group : regex :=
  cat_all [lit "G"; lit ":"; Plus (none_of ":()");
           Ahead (cat_all [Cls (one_of "DOS"); lit ":"])].

(* '[DS]:.+$' *)
Definition re_acl : regex :=
  cat_all [Cls (one_of "DS"); lit ":"; Plus dot; Eol].

(* '(\w\w)' *)
Definition re_const : regex := Grp (cat_all [Cls word; Cls word]).

(* '[^:()]+$' *)
Definition re_non_acl : regex := cat_all [Plus (none_of ":()"); Eol].

(** ** [str.split] with a one-character separator *)

Fixpoint str_split (sep : ascii) (s : string) : list string :=
  match s with
  | EmptyString => [EmptyString]
  | String c s' =>
      if Ascii.eqb c sep then EmptyString :: str_split sep s'
      else
        match str_split sep s' with
        | f :: fs => String c f :: fs
        | [] => [String c EmptyString]
        end
  end.

(** ** Dictionaries *)

(** A dictionary display [{k1: v1, k2: v2, ...}]: the items are stored
    from left to right, so a key written twice keeps its last value. *)
Definition dict_of (items : list (string * string)) : gmap string string :=
  foldl (fun d kv => <[kv.1 := kv.2]> d) ∅ items.

(** [d[k]] *)
Definition subscript (d : gmap string string) (k : string) : res string :=
  match d !! k with
  | Some v => Ok v
  | None => Raise (KeyError k)
  end.

(** [k in d] *)
Definition contains (d : gmap string string) (k : string) : bool :=
  bool_decide (is_Some (d !! k)).

(** The truth value of a [str]: the empty string is false. *)
Definition truthy (s : string) : bool :=
  match s with
  | EmptyString => false
  | String _ _ => true
  end.

(** The truth value of [None] or a [str]. *)
Definition truthy_opt (o : option string) : bool :=
  match o with
  | Some s => truthy s
  | None => false
  end.

(** ** The code tables *)

Definition SDDL_TYPE_items : list (string * string) :=
  [("O", "Owner");
   ("G", "Group");
   ("D", "DACL");
   ("S", "SACL")].

Definition SDDL_TYPE : gmap string string := dict_of SDDL_TYPE_items.

(** The display of [ACCESS] writes the key ['FA'] twice. *)
Definition ACCESS_items : list (string * string) :=
  [("A", "ACCESS_ALLOWED");
   ("D", "ACCESS_DENIED");
   ("OA", "ACCESS_ALLOWED_OBJECT");
   ("OD", "ACCESS_DENIED_OBJECT");
   ("AU", "SYSTEM_AUDIT");
   ("AL", "SYSTEM_ALARM");
   ("OU", "SYSTEM_AUDIT_OBJECT");
   ("OL", "SYSTEM_ALARM_OBJECT");
   ("CI", "CONTAINER_INHERIT");
   ("OI", "OBJECT_INHERIT");
   ("NP", "NO_PROPAGATE_INHERIT");
   ("IO", "INHERIT_ONLY");
   ("ID", "INHERITED");
   ("SA", "SUCCESSFUL_ACCESS");
   ("FA", "FAILED_ACCESS");
   ("GA", "GENERIC_ALL");
   ("GR", "GENERIC_READ");
   ("GW", "GENERIC_WRITE");
   ("GX", "GENERIC_EXECUTE");
   ("RC", "READ_CONTROL");
   ("SD", "DELETE");
   ("WD", "WRITE_DAC");
   ("WO", "WRITE_OWNER");
   ("RP", "DS_READ_PROP");
   ("WP", "DS_WRITE_PROP");
   ("CC", "DS_CREATE_CHILD");
   ("DC", "DS_DELETE_CHILD");
   ("LC", "DS_LIST");
   ("SW", "DS_SELF");
   ("LO", "DS_LIST_OBJECT");
   ("DT", "DS_DELETE_TREE");
   ("FA", "FILE_ALL_ACCESS");
   ("FR", "FILE_GENERIC_READ");
   ("FW", "FILE_GENERIC_WRITE");
   ("FX", "FILE_GENERIC_EXECUTE");
   ("KA", "KEY_ALL_ACCESS");
   ("KR", "KEY_READ");
   ("KW", "KEY_WRITE");
   ("KE", "KEY_EXECUTE")].

(** The module-level [ACCESS] as the module is loaded. *)
Definition ACCESS : gmap string string := dict_of ACCESS_items.

Definition TRUSTEE_items : list (string * string) :=
  [("AO", "Account Operators");
   ("RU", "Pre-Win2k Compatibility Access");
   ("AN", "Anonymous");
   ("AU", "Authenticated Users");
   ("BA", "Administrators");
   ("BG", "Guests");
   ("BO", "Backup Operators");
   ("BU", "Users");
   ("CA", "Certificate Publishers");
   ("CD", "Certificate Services DCOM Access");
   ("CG", "Creator Group");
   ("CO", "Creator Owner");
   ("DA", "Domain Admins");
   ("DC", "Domain Computers");
   ("DD", "Domain Controllers");
   ("DG", "Domain Guests");
   ("DU", "Domain Users");
   ("EA", "Enterprise Admins");
   ("ED", "Enterprise Domain Controllers");
   ("RO", "Enterprise Read-Only Domain Controllers");
   ("WD", "Everyone");
   ("PA", "Group Policy Admins");
   ("IU", "Interactive Users");
   ("LA", "Local Administrator");
   ("LG", "Local Guest");
   ("LS", "Local Service");
   ("SY", "Local System");
   ("NU", "Network");
   ("LW", "Low Integrity");
   ("ME", "Medium Integrity");
   ("HI", "High Integrity");
   ("SI", "System Integrity");
   ("NO", "Network Configuration Operators");
   ("NS", "Network Service");
   ("PO", "Printer Operators");
   ("PS", "Self");
   ("PU", "Power Users");
   ("RS", "RAS Servers");
   ("RD", "Remote Desktop Users");
   ("RE", "Replicator");
   ("RC", "Restricted Code");
   ("SA", "Schema Administrators");
   ("SO", "Server Operators");
   ("SU", "Service")].

Definition TRUSTEE : gmap string string := dict_of TRUSTEE_items.

(** The tables are kept folded when a goal is simplified. *)
Arguments SDDL_TYPE : simpl never.
Arguments ACCESS : simpl never.
Arguments TRUSTEE : simpl never.

(** ** Entries and descriptors *)

Record ACE : Type := MkACE {
  ace_string : string;
  flags : list string;
  perms : list string;
  ace_type : string;
  object_type : string;
  inherited_type : string;
  trustee : option string
}.

(** The attributes of an [SDDL] object.  [self.ACCESS] is not a field of
    its own: it is the module-level table itself. *)
Record SDDL : Type := MkSDDL {
  target : option string;
  sddl_string : string;
  sddl_type : option string;
  acl : list ACE;
  group_sid : option string;
  group_account : option string;
  owner_sid : option string;
  owner_account : option string
}.

(** [for x in xs: out.append(f(x))], stopping at the first exception. *)
Fixpoint for_each {A B} (f : A -> res B) (xs : list A) : res (list B) :=
  match xs with
  | [] => Ok []
  | x :: xs' =>
      y ← f x;
      ys ← for_each f xs';
      mret (y :: ys)
  end.

(** [if d[code]: out = d[code] else: out = code] *)
Definition translate (d : gmap string string) (code : string) : res string :=
  v ← subscript d code;
  mret (if truthy v then v else code).

(** The service meanings, in the order of the assignments. *)
Definition service_items : list (string * string) :=
  [("CC", "Query Configuration");
   ("DC", "Change Configuration");
   ("LC", "Query State");
   ("SW", "Enumerate Dependencies");
   ("RP", "Start");
   ("WP", "Stop");
   ("DT", "Pause");
   ("LO", "Interrogate");
   ("CR", "User Defined");
   ("SD", "Delete");
   ("RC", "Read the Security Descriptor");
   ("WD", "Change Permissions");
   ("WO", "Change Owner")].

(** [self.ACCESS[k] = v] for each service meaning. *)
Definition service_assign (d : gmap string string) : gmap string string :=
  foldl (fun d kv => <[kv.1 := kv.2]> d) d service_items.

Section WithWMI.

(** [wmi.WMI().Get(moniker)]: the account's [ReferencedDomainName] and
    [AccountName], or nothing. *)
Variable WMI_Get : string -> option (string * string).

Definition dquote : string := String "034" EmptyString.

Definition TranslateSid (sid_string : string) : option string :=
  match WMI_Get ("Win32_SID.SID=" +:+ dquote +:+ sid_string +:+ dquote) with
  | Some (ReferencedDomainName, AccountName) =>
      Some (ReferencedDomainName +:+ "\" +:+ AccountName)
  | None => None
  end.

(** [ACE.__init__(self, ace_string, access_constants)] *)
Definition ACE_init (ace_string : string)
    (access_constants : gmap string string) : res ACE :=
  let LOCAL_ACCESS := access_constants in
  match str_split ";" ace_string with
  | [f0; f1; f2; f3; f4; f5] =>
      ace_type ← translate LOCAL_ACCESS f0;
      flags ← for_each (translate LOCAL_ACCESS) (re_findall re_const f1);
      perms ← for_each (translate LOCAL_ACCESS) (re_findall re_const f2);
      let perms := merge_sort String.le perms in
      v ← subscript TRUSTEE f5;
      let trustee := if truthy v then Some v else None in
      let trustee :=
        if truthy_opt trustee then trustee else TranslateSid f5 in
      let trustee :=
        if truthy_opt trustee then trustee
        else Some "Unknown or invalid SID." in
      mret (MkACE ace_string flags perms ace_type f3 f4 trustee)
  | _ => Raise InvalidAceStringError
  end.

(** [if sid in TRUSTEE: a = TRUSTEE[sid] else: a = TranslateSid(sid)],
    then [if not a: a = 'Unknown']. *)
Definition account_of (sid : string) : res (option string) :=
  account ←
    (if contains TRUSTEE sid then v ← subscript TRUSTEE sid; mret (Some v)
     else Ok (TranslateSid sid));
  mret (if truthy_opt account then account else Some "Unknown").

(** [m.group()] where [m] may be [None]. *)
Definition group_of (m : option match_obj) : res string :=
  match m with
  | Some m => Ok (group m)
  | None => Raise AttributeError
  end.

(** One turn of the loop over the owner, group and ACL matches. *)
Definition SDDL_part (d : gmap string string) (self : SDDL)
    (m : option match_obj) : res SDDL :=
  match m with
  | None => Ok self
  | Some m =>
      let part := group m in
      sddl_prefix ← group_of (re_match re_type part);
      if String.eqb sddl_prefix "D" || String.eqb sddl_prefix "S" then
        ty ← (if contains SDDL_TYPE sddl_prefix
              then subscript SDDL_TYPE sddl_prefix
              else Raise InvalidSddlTypeError);
        aces ← for_each (fun perms => ACE_init perms d)
                        (re_findall re_perms part);
        mret (MkSDDL (target self) (sddl_string self) (Some ty)
                     (acl self ++ aces) (group_sid self) (group_account self)
                     (owner_sid self) (owner_account self))
      else if String.eqb sddl_prefix "G" then
        sid ← group_of (re_search re_non_acl part);
        account ← account_of sid;
        mret (MkSDDL (target self) (sddl_string self) (sddl_type self)
                     (acl self) (Some sid) account
                     (owner_sid self) (owner_account self))
      else if String.eqb sddl_prefix "O" then
        sid ← group_of (re_search re_non_acl part);
        account ← account_of sid;
        mret (MkSDDL (target self) (sddl_string self) (sddl_type self)
                     (acl self) (group_sid self) (group_account self)
                     (Some sid) account)
      else Raise InvalidSddlStringError
  end.

Fixpoint SDDL_loop (d : gmap string string) (self : SDDL)
    (ms : list (option match_obj)) : res SDDL :=
  match ms with
  | [] => Ok self
  | m :: ms' =>
      self' ← SDDL_part d self m;
      SDDL_loop d self' ms'
  end.

(** [SDDL.__init__(self, sddl_string, target)], run with the module-level
    [ACCESS] holding [d]: the outcome of the call and what [ACCESS] holds
    afterwards. *)
Definition SDDL_init (sddl_string : string) (target : option string)
    (d : gmap string string) : res SDDL * gmap string string :=
  let self := MkSDDL target sddl_string None [] None None None None in
  let sddl_owner_part := re_search re_owner sddl_string in
  let sddl_group_part := re_search re_group sddl_string in
  let sddl_acl_part := re_search re_acl sddl_string in
  let d :=
    if bool_decide (target = Some "service") then service_assign d else d in
  (SDDL_loop d self [sddl_owner_part; sddl_group_part; sddl_acl_part], d).

End WithWMI.

(** [cmp(a, b)] where each of [a] and [b] is [None] or a [str]: -1, 0 or
    1.  Two strings are compared byte by byte; [None] is smaller than any
    string. *)
Definition cmp (a b : option string) : Z :=
  match a, b with
  | None, None => 0
  | None, Some _ => -1
  | Some _, None => 1
  | Some a, Some b =>
      match String.compare a b with
      | Lt => -1
      | Eq => 0
      | Gt => 1
      end
  end%Z.

(** [SortAceByTrustee(x, y)] *)
Definition SortAceByTrustee (x y : ACE) : Z := cmp (trustee x) (trustee y).

(** ** Notions used to state the properties *)

(** Whether the character [c] occurs in [s]. *)
Fixpoint str_mem (c : ascii) (s : string) : bool :=
  match s with
  | EmptyString => false
  | String c' s' => Ascii.eqb c c' || str_mem c s'
  end.

(** Every character of [s] is in the class [p]. *)
Fixpoint str_all (p : ascii -> bool) (s : string) : bool :=
  match s with
  | EmptyString => true
  | String c s' => p c && str_all p s'
  end.

(** The number of separators in a string. *)
Fixpoint count_char (sep : ascii) (s : string) : nat :=
  match s with
  | EmptyString => 0
  | String c s' => (if Ascii.eqb c sep then 1 else 0) + count_char sep s'
  end.

(** The tokens of a field as the description of the tokenisation has
    them, to be compared with [re_findall re_const]: from left to right, a
    pair is taken where two word characters stand, otherwise one character
    is passed over. *)
Fixpoint word_pairs (s : string) : list string :=
  match s with
  | String a t =>
      match t with
      | String b s' =>
          if word a && word b then String a (String b "") :: word_pairs s'
          else word_pairs t
      | EmptyString => []
      end
  | EmptyString => []
  end.

(** The word characters, written out: the letters, the digits and the
    underscore. *)
Definition word_characters : string :=
  "abcdefghijklmnopqrstuvwxyzABCDEFGHIJKLMNOPQRSTUVWXYZ0123456789_".

(** The tokens of a field as the description of the tokenisation has
    them, with the word characters written out: from left to right, two
    characters that are both word characters make a token, and a
    character that does not start such a pair is passed over. *)
Fixpoint token_pairs (s : string) : list string :=
  match s with
  | String a t =>
      match t with
      | String b s' =>
          if str_mem a word_characters && str_mem b word_characters
          then String a (String b "") :: token_pairs s'
          else token_pairs t
      | EmptyString => []
      end
  | EmptyString => []
  end.

(** A string cut into pieces of two characters; a last single character
    is left out. *)
Fixpoint pairs (s : string) : list string :=
  match s with
  | String a (String b s') => String a (String b "") :: pairs s'
  | _ => []
  end.

(** The codes that the service assignments write. *)
Definition service_codes : list string := service_items.*1.

(** The head of [s], if any, is not in the class [p]. *)
Definition stops (p : ascii -> bool) (s : string) : bool :=
  match s with
  | EmptyString => true
  | String c _ => negb (p c)
  end.

(** Whether [s] starts with a character of the class [l] and a colon. *)
Definition starts_section (l : ascii -> bool) (s : string) : bool :=
  match s with
  | String x (String c _) => l x && Ascii.eqb c ":"
  | _ => false
  end.

(** No character of [pre], in [pre] followed by [rest], starts a section
    of the class [l]. *)
Fixpoint no_section (l : ascii -> bool) (pre rest : string) : bool :=
  match pre with
  | EmptyString => true
  | String c pre' =>
      negb (starts_section l (String c (pre' +:+ rest)))
      && no_section l pre' rest
  end.

(** A code as the table [d] translates it when nothing is raised. *)
Definition resolve (d : gmap string string) (code : string) : string :=
  match d !! code with
  | Some v => if truthy v then v else code
  | None => code
  end.

(** The text of an ACL section with the entries [es]. *)
Fixpoint entries_text (es : list string) : string :=
  match es with
  | [] => EmptyString
  | e :: es' => "(" +:+ e +:+ ")" +:+ entries_text es'
  end.

(** The module-level table after a sequence of constructor calls, each
    call a string and a target. *)
Definition table_after (W : string -> option (string * string))
    (calls : list (string * option string)) (d : gmap string string)
    : gmap string string :=
  foldl (fun d call => (SDDL_init W call.1 call.2 d).2) d calls.

(** The name of an ACL by its letter. *)
Definition acl_name (x : ascii) : string :=
  if Ascii.eqb x "D" then "DACL" else "SACL".

(** What the constructor sets for the owner of [s]: nothing when no owner
    section is found; otherwise the text [o] between "O:" and the "D:",
    "G:" or "S:" that follows it, and the account of [o]. *)
Definition owner_of (W : string -> option (string * string)) (s : string)
    (sid account : option string) : Prop :=
  (re_search re_owner s = None /\ sid = None /\ account = None) \/
  (exists o x rest name,
     s = "O:" +:+ o +:+ String x (String ":" rest) /\
     o <> "" /\ str_all (none_of ":()") o = true /\ one_of "DGS" x = true /\
     sid = Some o /\ account = Some name /\
     account_of W o = Ok (Some name) /\ name <> "").

(** What the constructor sets for the group of [s], likewise. *)
Definition group_of_string (W : string -> option (string * string))
    (s : string) (sid account : option string) : Prop :=
  (re_search re_group s = None /\ sid = None /\ account = None) \/
  (exists before g x rest name,
     s = before +:+ "G:" +:+ g +:+ String x (String ":" rest) /\
     g <> "" /\ str_all (none_of ":()") g = true /\ one_of "DOS" x = true /\
     sid = Some g /\ account = Some name /\
     account_of W g = Ok (Some name) /\ name <> "").

(** A WMI that knows no account. *)
Definition no_account : string -> option (string * string) := fun _ => None.

(** * Properties *)

(** ** Strings *)

Module Str.

Lemma app_cons (c : ascii) (s t : string) :
  String c s +:+ t = String c (s +:+ t).
Proof. reflexivity. Qed.

Lemma app_nil_l (s : string) : "" +:+ s = s.
Proof. reflexivity. Qed.

Lemma app_nil_r (s : string) : s +:+ "" = s.
Proof. induction s as [|c s IH]; [done|]. by rewrite app_cons, IH. Qed.

Lemma app_assoc (s t u : string) : (s +:+ t) +:+ u = s +:+ (t +:+ u).
Proof. induction s as [|c s IH]; [done|]. rewrite !app_cons. by rewrite IH. Qed.

Lemma length_app (s t : string) :
  String.length (s +:+ t) = String.length s + String.length t.
Proof. induction s as [|c s IH]; [done|]. rewrite app_cons. cbn. by rewrite IH. Qed.

Lemma snoc_app (s : string) (c : ascii) (t : string) :
  (s +:+ String c "") +:+ t = s +:+ String c t.
Proof. by rewrite app_assoc. Qed.

Lemma substring_prefix (s t : string) :
  String.substring 0 (String.length s) (s +:+ t) = s.
Proof.
  induction s as [|c s IH]; [by destruct t|].
  rewrite app_cons. cbn. by rewrite IH.
Qed.

Lemma substring_middle (s t u : string) :
  String.substring (String.length s) (String.length t) (s +:+ t +:+ u) = t.
Proof.
  induction s as [|c s IH]; [exact (substring_prefix t u)|].
  rewrite app_cons. cbn. apply IH.
Qed.

Lemma mem_app (c : ascii) (s t : string) :
  str_mem c (s +:+ t) = str_mem c s || str_mem c t.
Proof.
  induction s as [|c' s IH]; [done|].
  rewrite app_cons. cbn. rewrite IH. by rewrite orb_assoc.
Qed.

End Str.

(** Push the constructors of a literal prefix out of an append. *)
Ltac norm_app :=
  repeat first [rewrite Str.app_cons | rewrite Str.app_nil_l].
Ltac norm_app_in H :=
  repeat first [rewrite Str.app_cons in H | rewrite Str.app_nil_l in H].

(** ** The matcher *)

Section Matcher.

(** A successful [class+] took a non-empty run of the class and the rest
    of the pattern matched what follows the run. *)
Lemma plus_loop_Some p k pos g s st :
  plus_loop p k pos g s = Some st ->
  exists run rest,
    s = run +:+ rest /\ run <> "" /\ str_all p run = true /\
    k (MState (pos + String.length run) rest g) = Some st.
Proof.
  revert pos. induction s as [|c s IH]; intros pos H; [done|].
  cbn in H. destruct (p c) eqn:Hc; [|done].
  destruct (plus_loop p k (S pos) g s) as [st'|] eqn:Hl.
  - injection H as ->.
    destruct (IH _ Hl) as (run & rest & -> & _ & Hall & Hk).
    exists (String c run), rest. rewrite Str.app_cons. cbn.
    rewrite Hc, Hall. repeat split; [done|].
    by replace (pos + S (String.length run)) with (S pos + String.length run)
      by lia.
  - exists (String c ""), s. cbn. rewrite Hc.
    repeat split; [done|]. by replace (pos + 1) with (S pos) by lia.
Qed.

(** A successful search found its match at some suffix of the text. *)
Lemma search_from_Some r subject pos s m :
  search_from r subject pos s = Some m ->
  exists skipped rest st,
    s = skipped +:+ rest /\
    rmatch r (MState (pos + String.length skipped) rest None) Some = Some st /\
    m = MatchObj subject (pos + String.length skipped) st.
Proof.
  revert pos. induction s as [|c s IH]; intros pos H; cbn in H.
  - destruct (rmatch r _ Some) as [st|] eqn:Hm; [|done].
    exists "", "", st. cbn. rewrite Nat.add_0_r. naive_solver.
  - destruct (rmatch r _ Some) as [st|] eqn:Hm.
    + exists "", (String c s), st. cbn. rewrite Nat.add_0_r. naive_solver.
    + destruct (IH _ H) as (skipped & rest & st & -> & Hr & ->).
      exists (String c skipped), rest, st. rewrite Str.app_cons. cbn.
      by replace (pos + S (String.length skipped))
        with (S pos + String.length skipped) by lia.
Qed.

Lemma one_char_Some p k st st' :
  one_char p k st = Some st' ->
  exists c s',
    m_rest st = String c s' /\ p c = true /\
    k (MState (S (m_pos st)) s' (m_grp st)) = Some st'.
Proof.
  unfold one_char. destruct (m_rest st) as [|c s']; [done|].
  destruct (p c) eqn:Hc; [|done]. eauto.
Qed.

Lemma eqb_true_eq (a b : ascii) : Ascii.eqb a b = true -> b = a.
Proof. by intros ->%Ascii.eqb_eq. Qed.

End Matcher.

(** ** The owner, group and ACL patterns *)

Section Segments.

(** [class+(?=[q]:)]: the run is followed by a letter of [q] and a colon,
    neither of which is consumed. *)
Lemma run_then_ahead p q pos g s st :
  rmatch (Cat (Plus p) (Ahead (Cat (Cls q) (lit ":")))) (MState pos s g) Some
    = Some st ->
  exists body x rest,
    s = body +:+ String x (String ":" rest) /\ body <> "" /\
    str_all p body = true /\ q x = true /\
    st = MState (pos + String.length body) (String x (String ":" rest)) g.
Proof.
  cbn [rmatch m_pos m_rest m_grp]. intros H.
  apply plus_loop_Some in H as (body & rest & -> & Hne & Hall & H).
  destruct (one_char q _ _) as [st'|] eqn:Hq; [|done].
  injection H as <-.
  apply one_char_Some in Hq as (x & s1 & Hx & Hqx & Hq). cbn in Hx, Hq.
  apply one_char_Some in Hq as (y & s2 & Hy & Hc & _). cbn in Hy.
  apply eqb_true_eq in Hc. subst. eauto 10.
Qed.

(** [re_owner] matches only at the start of the text, and only an ["O:"]
    section that a ["D:"], ["G:"] or ["S:"] follows. *)
Lemma re_owner_rmatch pos s st :
  rmatch re_owner (MState pos s None) Some = Some st ->
  pos = 0 /\
  exists body x rest,
    s = "O:" +:+ body +:+ String x (String ":" rest) /\ body <> "" /\
    str_all (none_of ":()") body = true /\ one_of "DGS" x = true /\
    m_pos st = 2 + String.length body.
Proof.
  unfold re_owner, cat_all. cbn [rmatch m_pos]. intros H.
  destruct (Nat.eqb_spec pos 0) as [->|]; [|done]. split; [done|].
  apply one_char_Some in H as (c1 & s1 & H1 & ->%eqb_true_eq & H).
  apply one_char_Some in H as (c2 & s2 & H2 & ->%eqb_true_eq & H).
  cbn in H1, H2, H. subst.
  apply (run_then_ahead (none_of ":()") (one_of "DGS")) in H
    as (body & x & rest & -> & ? & ? & ? & ->).
  exists body, x, rest. done.
Qed.

Lemma re_group_rmatch pos s st :
  rmatch re_group (MState pos s None) Some = Some st ->
  exists body x rest,
    s = "G:" +:+ body +:+ String x (String ":" rest) /\ body <> "" /\
    str_all (none_of ":()") body = true /\ one_of "DOS" x = true /\
    m_pos st = pos + (2 + String.length body).
Proof.
  unfold re_group, cat_all. cbn [rmatch m_pos]. intros H.
  apply one_char_Some in H as (c1 & s1 & H1 & ->%eqb_true_eq & H).
  apply one_char_Some in H as (c2 & s2 & H2 & ->%eqb_true_eq & H).
  cbn in H1, H2, H. subst.
  apply (run_then_ahead (none_of ":()") (one_of "DOS")) in H
    as (body & x & rest & -> & ? & ? & ? & ->).
  exists body, x, rest. cbn. repeat split; [done..|lia].
Qed.

(** [re_acl] matches only where a ["D:"] or an ["S:"] stands. *)
Lemma re_acl_rmatch pos s st :
  rmatch re_acl (MState pos s None) Some = Some st ->
  exists x rest, s = String x (String ":" rest) /\ one_of "DS" x = true.
Proof.
  unfold re_acl, cat_all. cbn [rmatch m_pos]. intros H.
  apply one_char_Some in H as (c1 & s1 & H1 & Hx & H).
  apply one_char_Some in H as (c2 & s2 & H2 & ->%eqb_true_eq & H).
  cbn in H1, H2. subst. eauto.
Qed.

(** An owner section is found only when the text is an ["O:"] section and
    then a ["D:"], ["G:"] or ["S:"]; the section found stops before it. *)
Lemma re_owner_search s m :
  re_search re_owner s = Some m ->
  exists body x rest,
    s = "O:" +:+ body +:+ String x (String ":" rest) /\
    body <> "" /\ str_all (none_of ":()") body = true /\
    one_of "DGS" x = true /\ group m = "O:" +:+ body.
Proof.
  intros H. apply search_from_Some in H as (skipped & tl & st & -> & H & ->).
  apply re_owner_rmatch in H as (Hpos & body & x & rest & -> & ? & ? & ? & Hend).
  cbn in Hpos. destruct skipped; [|done].
  exists body, x, rest. repeat split; [done..|].
  unfold group. cbn [mo_start mo_end mo_subject]. rewrite Hend.
  change (0 + String.length "") with 0.
  replace (2 + String.length body - 0)
    with (String.length ("O:" +:+ body)) by (rewrite Str.length_app; cbn; lia).
  change ("" +:+ ?t) with t. rewrite <- Str.app_assoc.
  apply Str.substring_prefix.
Qed.

(** A group section is found only where a ["G:"] section stands and then
    a ["D:"], ["O:"] or ["S:"]. *)
Lemma re_group_search s m :
  re_search re_group s = Some m ->
  exists before body x rest,
    s = before +:+ "G:" +:+ body +:+ String x (String ":" rest) /\
    body <> "" /\ str_all (none_of ":()") body = true /\
    one_of "DOS" x = true /\ group m = "G:" +:+ body.
Proof.
  intros H. apply search_from_Some in H as (skipped & tl & st & -> & H & ->).
  apply re_group_rmatch in H as (body & x & rest & -> & ? & ? & ? & Hend).
  exists skipped, body, x, rest. repeat split; [done..|].
  unfold group. cbn [mo_start mo_end mo_subject]. rewrite Hend.
  replace (0 + String.length skipped + (2 + String.length body)
           - (0 + String.length skipped))
    with (String.length ("G:" +:+ body)) by (rewrite Str.length_app; cbn; lia).
  rewrite <- (Str.app_assoc "G:"). apply Str.substring_middle.
Qed.

(** In ["O:" ++ code] with no colon in [code], a letter with a colon after
    it can only be the leading ["O"]. *)
Lemma colon_after_letter code skipped x rest :
  str_mem ":" code = false ->
  "O:" +:+ code = skipped +:+ String x (String ":" rest) ->
  skipped = "" /\ x = "O"%char.
Proof.
  intros Hc H. destruct skipped as [|a [|b sk]]; norm_app_in H.
  - by injection H as <- _.
  - injection H as _ _ ->. cbn in Hc. done.
  - injection H as _ _ ->. rewrite Str.mem_app in Hc. cbn in Hc.
    rewrite orb_true_r in Hc. rewrite orb_true_r in Hc. done.
Qed.

Lemma owner_alone_no_owner code :
  str_mem ":" code = false -> re_search re_owner ("O:" +:+ code) = None.
Proof.
  intros Hc. destruct (re_search _ _) as [m|] eqn:H; [|done].
  apply re_owner_search in H as (body & x & rest & H & _).
  norm_app_in H. injection H as ->. rewrite Str.mem_app in Hc. cbn in Hc.
  rewrite orb_true_r in Hc. rewrite orb_true_r in Hc. done.
Qed.

Lemma owner_alone_no_group code :
  str_mem ":" code = false -> re_search re_group ("O:" +:+ code) = None.
Proof.
  intros Hc. destruct (re_search _ _) as [m|] eqn:H; [|done].
  apply re_group_search in H as (before & body & x & rest & H & _).
  by apply (colon_after_letter _ before "G"%char _ Hc) in H as [_ ?].
Qed.

Lemma owner_alone_no_acl code :
  str_mem ":" code = false -> re_search re_acl ("O:" +:+ code) = None.
Proof.
  intros Hc. destruct (re_search _ _) as [m|] eqn:H; [|done].
  apply search_from_Some in H as (skipped & tl & st & H & Hm & _).
  apply re_acl_rmatch in Hm as (x & rest & -> & Hx).
  by apply (colon_after_letter _ _ _ _ Hc) in H as [_ ->].
Qed.

End Segments.

(** ** Tokens of a flags or permissions field *)

Section Tokens.

Lemma re_const_rmatch pos s :
  rmatch re_const (MState pos s None) Some =
  match s with
  | String a (String b s') =>
      if word a && word b
      then Some (MState (S (S pos)) s' (Some (pos, S (S pos))))
      else None
  | _ => None
  end.
Proof.
  unfold re_const, cat_all. cbn [rmatch]. unfold one_char. cbn.
  destruct s as [|a [|b s']]; [done| |]; by destruct (word a); try destruct (word b).
Qed.

Lemma findall_re_const_from n s before :
  String.length s <= n ->
  findall_from re_const (before +:+ s) 0 (String.length before) s
    = word_pairs s.
Proof.
  revert s before. induction n as [|n IH]; intros s before Hn.
  { destruct s; [|cbn in Hn; lia]. cbn [findall_from].
    by rewrite re_const_rmatch. }
  destruct s as [|a [|b s']].
  - cbn [findall_from]. by rewrite re_const_rmatch.
  - cbn [findall_from]. rewrite re_const_rmatch. cbn [findall_from].
    by rewrite re_const_rmatch.
  - cbn [findall_from word_pairs]. rewrite re_const_rmatch.
    destruct (word a && word b) eqn:Hw.
    + cbn [m_pos].
      replace (S (S (String.length before)) - String.length before - 1)
        with 1 by lia.
      cbn [findall_from]. f_equal.
      * unfold findall_item. cbn.
        replace (S (S (String.length before)) - String.length before)
          with (String.length (String a (String b ""))) by (cbn; lia).
        change (String a (String b s')) with (String a (String b "") +:+ s').
        apply Str.substring_middle.
      * specialize (IH s' (before +:+ String a (String b ""))).
        rewrite Str.app_assoc, Str.length_app in IH. cbn in IH.
        replace (String.length before + 2)
          with (S (S (String.length before))) in IH by lia.
        apply IH. cbn in Hn. lia.
    + specialize (IH (String b s') (before +:+ String a "")).
      rewrite Str.app_assoc, Str.length_app in IH. cbn in IH.
      replace (String.length before + 1)
        with (S (String.length before)) in IH by lia.
      apply IH. cbn in Hn. cbn. lia.
Qed.

(** [re.findall(re_const, s)] lists the pairs of word characters of [s]. *)
Lemma findall_re_const s : re_findall re_const s = word_pairs s.
Proof. exact (findall_re_const_from (String.length s) s "" (le_n _)). Qed.

(** Induction on a string two characters at a time. *)
Lemma string_pair_ind (P : string -> Prop) :
  P "" -> (forall a, P (String a "")) ->
  (forall a b s, P s -> P (String a (String b s))) ->
  forall s, P s.
Proof.
  intros H0 H1 H2 s. cut (P s /\ forall a, P (String a s)); [tauto|].
  induction s as [|c s [IHs IHc]]; [done|]. split; [apply IHc|].
  intros a. by apply H2.
Qed.

Lemma word_pairs_all_word s :
  str_all word s = true -> word_pairs s = pairs s.
Proof.
  induction s as [|a|a b s' IH] using string_pair_ind; [done..|].
  cbn. intros [Ha [Hb Hs]%andb_true_iff]%andb_true_iff.
  rewrite Ha, Hb. cbn. f_equal. by apply IH.
Qed.

(** In an even number of characters every character is in a pair, and one
    more character after them changes nothing. *)
Lemma pairs_even s c :
  Nat.Even (String.length s) ->
  pairs (s +:+ String c "") = pairs s /\ String.concat "" (pairs s) = s.
Proof.
  induction s as [|a|a b s' IH] using string_pair_ind; intros Hev.
  - done.
  - destruct Hev as [k Hk]. cbn in Hk. lia.
  - destruct IH as [H1 H2].
    { destruct Hev as [k Hk]. cbn in Hk. exists (k - 1). lia. }
    norm_app. cbn [pairs]. rewrite H1. split; [done|].
    cbn [String.concat]. destruct (pairs s') eqn:Hp.
    + cbn in H2. by subst.
    + rewrite H2. by norm_app.
Qed.

Lemma Even_SS n : Nat.Even (S (S n)) -> Nat.Even n.
Proof. intros [k Hk]. exists (k - 1). lia. Qed.

Lemma word_pairs_snoc s c :
  str_all word s = true -> Nat.Even (String.length s) ->
  word_pairs (s +:+ String c "") = word_pairs s.
Proof.
  induction s as [|a|a b s' IH] using string_pair_ind; intros Hs Hev.
  - done.
  - destruct Hev as [k Hk]. cbn in Hk. lia.
  - cbn in Hs. apply andb_true_iff in Hs as [Ha [Hb Hs]%andb_true_iff].
    norm_app. cbn [word_pairs]. rewrite Ha, Hb. cbn [andb]. f_equal.
    apply IH; [done|]. by apply Even_SS.
Qed.

(** The last character of a field of odd length is in no token: the
    tokens are those of the characters before it, which they cover. *)
Lemma findall_re_const_odd s c :
  str_all word s = true -> Nat.Even (String.length s) ->
  re_findall re_const (s +:+ String c "") = re_findall re_const s /\
  re_findall re_const s = pairs s /\
  String.concat "" (re_findall re_const s) = s.
Proof.
  intros Hs Hev. rewrite !findall_re_const.
  rewrite (word_pairs_snoc s c Hs Hev), (word_pairs_all_word s Hs).
  by destruct (pairs_even s c Hev) as [_ ->].
Qed.

End Tokens.

(** ** Fields of an entry *)

Section Fields.

Lemma str_split_length sep s :
  length (str_split sep s) = S (count_char sep s).
Proof.
  induction s as [|c s IH]; [done|]. cbn.
  destruct (Ascii.eqb c sep); cbn; [by rewrite IH|].
  destruct (str_split sep s); cbn in *; lia.
Qed.

Lemma concat_cons2 sep f g fs :
  String.concat sep (f :: g :: fs) = f +:+ sep +:+ String.concat sep (g :: fs).
Proof. reflexivity. Qed.

(** Joining the fields with the separator gives the string back. *)
Lemma str_split_join sep s :
  String.concat (String sep "") (str_split sep s) = s.
Proof.
  induction s as [|c s IH]; [done|]. cbn [str_split].
  pose proof (str_split_length sep s) as Hl.
  destruct (str_split sep s) as [|f fs]; [done|]. clear Hl.
  destruct (Ascii.eqb_spec c sep) as [->|Hne].
  - rewrite concat_cons2, IH. by norm_app.
  - destruct fs as [|g fs].
    + cbn in *. by subst.
    + rewrite concat_cons2 in *. by rewrite Str.app_cons, IH.
Qed.

End Fields.

(** ** Dictionaries *)

Section Dicts.

Lemma foldl_insert_lookup (items : list (string * string))
    (d : gmap string string) k :
  foldl (fun d kv => <[kv.1 := kv.2]> d) d items !! k =
  match list_find (fun kv => kv.1 = k) (reverse items) with
  | Some (_, kv) => Some kv.2
  | None => d !! k
  end.
Proof.
  revert d. induction items as [|[k' v'] items IH]; intros d; [done|].
  cbn [foldl]. rewrite IH, reverse_cons. cbn [fst snd].
  destruct (list_find _ (reverse items)) as [[i kv]|] eqn:Hf.
  - erewrite list_find_app_l; [done|]. eauto.
  - rewrite list_find_app_r by done. cbn.
    destruct (decide (k' = k)) as [->|Hne]; cbn.
    + by rewrite lookup_insert_eq.
    + by rewrite lookup_insert_ne.
Qed.

(** A value stored in a dictionary display is one of its items. *)
Lemma dict_of_lookup_Some items k v :
  dict_of items !! k = Some v -> (k, v) ∈ items.
Proof.
  unfold dict_of. rewrite foldl_insert_lookup.
  destruct (list_find _ _) as [[i [k' v']]|] eqn:Hf; [|done].
  apply list_find_Some in Hf as (Hi & Hk & _). cbn in Hk. subst.
  cbn. intros [= <-]. apply list_elem_of_lookup_2 in Hi.
  by apply elem_of_reverse.
Qed.

Lemma TRUSTEE_truthy k v : TRUSTEE !! k = Some v -> truthy v = true.
Proof.
  intros H%dict_of_lookup_Some. revert H.
  assert (Forall (fun kv => truthy kv.2 = true) TRUSTEE_items) as Hall
    by (repeat constructor).
  rewrite Forall_forall in Hall. intros H. by apply (Hall _ H).
Qed.

Lemma service_assign_lookup d k :
  service_assign d !! k =
  match list_find (fun kv => kv.1 = k) (reverse service_items) with
  | Some (_, kv) => Some kv.2
  | None => d !! k
  end.
Proof. apply foldl_insert_lookup. Qed.

(** A code that is no service code keeps its meaning. *)
Lemma service_assign_other d k :
  k ∉ service_codes -> service_assign d !! k = d !! k.
Proof.
  intros Hk. rewrite service_assign_lookup.
  destruct (list_find _ _) as [[i [k' v']]|] eqn:Hf; [|done].
  apply list_find_Some in Hf as (Hi & Hk' & _). cbn in Hk'. subst.
  apply list_elem_of_lookup_2, elem_of_reverse in Hi.
  destruct Hk. unfold service_codes.
  exact (list_elem_of_fmap_2 fst _ _ Hi).
Qed.

(** A service code gets its service meaning, whatever the table held. *)
Lemma service_assign_code d k v :
  (k, v) ∈ service_items -> service_assign d !! k = Some v.
Proof.
  intros Hin. rewrite service_assign_lookup.
  unfold service_items in *.
  repeat (apply elem_of_cons in Hin as [[= -> ->]|Hin]; [done|]).
  by apply elem_of_nil in Hin.
Qed.

End Dicts.

(** ** The constructor of [ACE] *)

Section Entries.

Variable W : string -> option (string * string).

Lemma for_each_Ok {A B} (f : A -> res B) xs ys :
  for_each f xs = Ok ys <-> Forall2 (fun x y => f x = Ok y) xs ys.
Proof.
  split.
  - revert ys. induction xs as [|x xs IH]; intros ys; cbn.
    + intros [= <-]. constructor.
    + destruct (f x) as [y|e] eqn:Hx; [|done]. cbn.
      destruct (for_each f xs) as [ys'|e]; [|done]. cbn.
      intros [= <-]. constructor; [done|]. by apply IH.
  - induction 1 as [|x y xs ys Hx _ IH]; [done|]. cbn. by rewrite Hx, IH.
Qed.

(** A code that is a key of the table is translated without an error. *)
Lemma translate_known d code :
  is_Some (d !! code) -> exists name, translate d code = Ok name.
Proof. intros [v Hv]. unfold translate, subscript. rewrite Hv. cbn. eauto. Qed.

(** A code that is no key of the table raises [KeyError]. *)
Lemma translate_unknown d code :
  d !! code = None -> translate d code = Raise (KeyError code).
Proof. intros Hv. unfold translate, subscript. by rewrite Hv. Qed.

Lemma for_each_translate_known d codes :
  Forall (fun code => is_Some (d !! code)) codes ->
  exists names, for_each (translate d) codes = Ok names.
Proof.
  induction 1 as [|code codes Hc _ [names IH]]; [by exists []|].
  destruct (translate_known d code Hc) as [name Hn].
  exists (name :: names). cbn. by rewrite Hn, IH.
Qed.

(** What an entry that was built holds. *)
Lemma ACE_init_Ok s d a :
  ACE_init W s d = Ok a ->
  exists f0 f1 f2 f3 f4 f5 names v,
    str_split ";" s = [f0; f1; f2; f3; f4; f5] /\
    translate d f0 = Ok (ace_type a) /\
    for_each (translate d) (re_findall re_const f1) = Ok (flags a) /\
    for_each (translate d) (re_findall re_const f2) = Ok names /\
    perms a = merge_sort String.le names /\
    object_type a = f3 /\ inherited_type a = f4 /\ ace_string a = s /\
    TRUSTEE !! f5 = Some v /\ trustee a = Some v.
Proof.
  unfold ACE_init.
  destruct (str_split ";" s) as [|f0 [|f1 [|f2 [|f3 [|f4 [|f5 [|]]]]]]]; try done.
  destruct (translate d f0) as [ty|] eqn:H0; [|done]. cbn.
  destruct (for_each _ (re_findall re_const f1)) as [fl|] eqn:H1; [|done]. cbn.
  destruct (for_each _ (re_findall re_const f2)) as [pe|] eqn:H2; [|done]. cbn.
  unfold subscript. destruct (TRUSTEE !! f5) as [v|] eqn:H5; [|done]. cbn.
  rewrite (TRUSTEE_truthy _ _ H5). cbn. rewrite (TRUSTEE_truthy _ _ H5).
  intros [= <-]. cbn. rewrite (TRUSTEE_truthy _ _ H5).
  by exists f0, f1, f2, f3, f4, f5, pe, v.
Qed.

(** The permissions of an entry are in ascending order. *)
Lemma ACE_init_perms_sorted s d a :
  ACE_init W s d = Ok a -> Sorted String.le (perms a).
Proof.
  intros (?&?&?&?&?&?& names &?&_&_&_&_& -> &_)%ACE_init_Ok.
  apply (Sorted_merge_sort String.le).
Qed.

(** The trustee of an entry that was built is a string that is not empty. *)
Lemma ACE_init_trustee s d a :
  ACE_init W s d = Ok a -> exists t, trustee a = Some t /\ t <> "".
Proof.
  intros (?&?&?&?&?& f5 &?& v &_&_&_&_&_&_&_&_& Hv & ->)%ACE_init_Ok.
  exists v. split; [done|]. intros ->. by apply TRUSTEE_truthy in Hv.
Qed.

(** With every code a key of its table the entry is built. *)
Lemma ACE_init_known s d f0 f1 f2 f3 f4 f5 :
  str_split ";" s = [f0; f1; f2; f3; f4; f5] ->
  is_Some (d !! f0) ->
  Forall (fun code => is_Some (d !! code)) (re_findall re_const f1) ->
  Forall (fun code => is_Some (d !! code)) (re_findall re_const f2) ->
  is_Some (TRUSTEE !! f5) ->
  exists a, ACE_init W s d = Ok a.
Proof.
  intros Hs H0 H1 H2 [v H5]. unfold ACE_init. rewrite Hs.
  destruct (translate_known d f0 H0) as [ty ->]. cbn.
  destruct (for_each_translate_known d _ H1) as [fl ->]. cbn.
  destruct (for_each_translate_known d _ H2) as [pe ->]. cbn.
  unfold subscript. rewrite H5. cbn. eauto.
Qed.

(** ** The constructor of [SDDL] *)

(** What the module-level table holds after a call. *)
Lemma SDDL_init_table s tgt d :
  (SDDL_init W s tgt d).2 =
  if bool_decide (tgt = Some "service") then service_assign d else d.
Proof. reflexivity. Qed.

(** With no section found the loop has nothing to do: the object is
    returned as it was initialised. *)
Lemma SDDL_init_no_section s tgt d :
  re_search re_owner s = None -> re_search re_group s = None ->
  re_search re_acl s = None ->
  (SDDL_init W s tgt d).1 = Ok (MkSDDL tgt s None [] None None None None).
Proof. intros Ho Hg Ha. unfold SDDL_init. by rewrite Ho, Hg, Ha. Qed.

Lemma TranslateSid_truthy sid name :
  TranslateSid W sid = Some name -> truthy name = true.
Proof.
  unfold TranslateSid.
  destruct (W _) as [[dom acc]|]; [|done]. intros [= <-].
  by destruct dom.
Qed.

(** The account of an owner or a group: never an exception, always a
    string that is not empty, and ["Unknown"] when the code is no key of
    [TRUSTEE] and WMI has no account for it. *)
Lemma account_of_total sid :
  exists name,
    account_of W sid = Ok (Some name) /\ name <> "" /\
    (forall v, TRUSTEE !! sid = Some v -> name = v) /\
    (TRUSTEE !! sid = None -> forall n, TranslateSid W sid = Some n -> name = n) /\
    (TRUSTEE !! sid = None -> TranslateSid W sid = None -> name = "Unknown").
Proof.
  unfold account_of, contains, subscript.
  destruct (TRUSTEE !! sid) as [v|] eqn:Hv.
  - rewrite bool_decide_eq_true_2 by eauto. cbn.
    pose proof (TRUSTEE_truthy _ _ Hv) as Ht. rewrite Ht.
    exists v. repeat split; try done; [|by intros ? [= ->]].
    intros ->. done.
  - rewrite bool_decide_eq_false_2 by (by intros [? ?]). cbn.
    destruct (TranslateSid W sid) as [n|] eqn:Hn; cbn.
    + pose proof (TranslateSid_truthy _ _ Hn) as Ht. rewrite Ht.
      exists n. repeat split; try done; [|by intros _ ? [= ->]].
      intros ->. done.
    + exists "Unknown". done.
Qed.

End Entries.

(** ** Exceptions that the constructors can raise *)

Section Raised.

Variable W : string -> option (string * string).

Lemma for_each_Raise {A B} (f : A -> res B) xs e :
  for_each f xs = Raise e -> exists x, x ∈ xs /\ f x = Raise e.
Proof.
  induction xs as [|x xs IH]; [done|]. cbn.
  destruct (f x) as [y|e'] eqn:Hx; cbn.
  - destruct (for_each f xs) as [ys|e'']; [done|]. cbn. intros [= ->].
    destruct IH as (x' & ? & ?); [done|]. exists x'. split; [by right|done].
  - intros [= ->]. exists x. split; [by left|done].
Qed.

Lemma translate_Raise d code e :
  translate d code = Raise e -> e = KeyError code /\ d !! code = None.
Proof.
  unfold translate, subscript. destruct (d !! code); [done|].
  by intros [= <-].
Qed.

(** The constructor of [ACE] raises [InvalidAceStringError] or
    [KeyError], nothing else. *)
Lemma ACE_init_Raise s d e :
  ACE_init W s d = Raise e ->
  e = InvalidAceStringError \/ exists code, e = KeyError code.
Proof.
  unfold ACE_init.
  destruct (str_split ";" s) as [|f0 [|f1 [|f2 [|f3 [|f4 [|f5 [|]]]]]]];
    try match goal with
        | |- Raise _ = Raise _ -> _ => intros [= <-]; by left
        end.
  destruct (translate d f0) as [ty|e0] eqn:H0; cbn;
    [|intros [= <-]; apply translate_Raise in H0 as [-> _]; eauto].
  destruct (for_each _ (re_findall re_const f1)) as [fl|e1] eqn:H1; cbn.
  2:{ intros [= <-]. apply for_each_Raise in H1 as (c & _ & Hc).
      apply translate_Raise in Hc as [-> _]. eauto. }
  destruct (for_each _ (re_findall re_const f2)) as [pe|e2] eqn:H2; cbn.
  2:{ intros [= <-]. apply for_each_Raise in H2 as (c & _ & Hc).
      apply translate_Raise in Hc as [-> _]. eauto. }
  unfold subscript. destruct (TRUSTEE !! f5); cbn; [done|].
  intros [= <-]. eauto.
Qed.

(** The text that [re_type] matches is one of the letters D, O, G, S. *)
Lemma re_type_match part mt :
  re_match re_type part = Some mt ->
  exists x, one_of "DOGS" x = true /\ group mt = String x "".
Proof.
  unfold re_match, re_type, cat_all. cbn [rmatch m_pos Nat.eqb].
  destruct (one_char _ Some _) as [st|] eqn:H; [|done]. intros [= <-].
  apply one_char_Some in H as (x & rest & Hx & Hp & [= <-]). cbn in Hx.
  subst. exists x. split; [done|]. unfold group. cbn. by destruct rest.
Qed.

Lemma one_of_DOGS x :
  one_of "DOGS" x = true ->
  x = "D"%char \/ x = "O"%char \/ x = "G"%char \/ x = "S"%char.
Proof.
  unfold one_of. intros H%bool_decide_eq_true_1. cbn in H.
  repeat (apply elem_of_cons in H as [->|H]; [tauto|]).
  by apply elem_of_nil in H.
Qed.

(** The last [else] of the loop is never reached: [InvalidSddlStringError]
    is not raised. *)
Lemma SDDL_part_no_string_error d self m :
  SDDL_part W d self m <> Raise InvalidSddlStringError.
Proof.
  unfold SDDL_part. destruct m as [m|]; [|done].
  destruct (re_match re_type (group m)) as [mt|] eqn:Hmt; [|done].
  apply re_type_match in Hmt as (x & Hx & Hmt).
  change (group_of (Some mt)) with (Ok (group mt)). rewrite Hmt.
  destruct (group_of (re_search re_non_acl (group m))) as [sid|e] eqn:Hg.
  2:{ assert (e = AttributeError) as ->
        by (unfold group_of in Hg;
            destruct (re_search re_non_acl (group m)); by simplify_eq).
      apply one_of_DOGS in Hx as [-> | [-> | [-> | ->]]]; cbn; try done.
      all: destruct (for_each _ _) as [aces|e] eqn:Ha; [done|]; cbn.
      all: apply for_each_Raise in Ha as (p & _ & Hp).
      all: apply ACE_init_Raise in Hp as [->|[c ->]]; done. }
  destruct (account_of_total W sid) as (n & Hn & _).
  apply one_of_DOGS in Hx as [-> | [-> | [-> | ->]]]; cbn; rewrite ?Hn; try done.
  all: destruct (for_each _ _) as [aces|e] eqn:Ha; [done|]; cbn.
  all: apply for_each_Raise in Ha as (p & _ & Hp).
  all: apply ACE_init_Raise in Hp as [->|[c ->]]; done.
Qed.

Lemma SDDL_loop_no_string_error d self ms :
  SDDL_loop W d self ms <> Raise InvalidSddlStringError.
Proof.
  revert self. induction ms as [|m ms IH]; intros self; [done|]. cbn.
  destruct (SDDL_part W d self m) as [self'|e] eqn:Hp; cbn; [apply IH|].
  intros [= ->]. by apply SDDL_part_no_string_error in Hp.
Qed.

End Raised.

(** ** The behaviour of the two constructors *)

Section Behaviour.

Variable W : string -> option (string * string).

(** An entry type that is no key of the table raises [KeyError]. *)
Lemma ACE_init_unknown_type s d f0 f1 f2 f3 f4 f5 :
  str_split ";" s = [f0; f1; f2; f3; f4; f5] -> d !! f0 = None ->
  ACE_init W s d = Raise (KeyError f0).
Proof.
  intros Hs H0. unfold ACE_init. rewrite Hs.
  by rewrite (translate_unknown _ _ H0).
Qed.

Lemma for_each_translate_Ok d codes names :
  for_each (translate d) codes = Ok names ->
  Forall (fun code => is_Some (d !! code)) codes.
Proof.
  intros H%for_each_Ok. induction H as [|c n cs ns Hc _ IH]; constructor; [|done].
  unfold translate, subscript in Hc. by destruct (d !! c); eauto.
Qed.

(** A six-field entry with an entry type, a flag token or a permission
    token that is no key of the table raises [KeyError] for such a code. *)
Lemma ACE_init_unknown_code s d f0 f1 f2 f3 f4 f5 :
  str_split ";" s = [f0; f1; f2; f3; f4; f5] ->
  Exists (fun code => d !! code = None)
         (f0 :: re_findall re_const f1 ++ re_findall re_const f2) ->
  exists code, d !! code = None /\ ACE_init W s d = Raise (KeyError code).
Proof.
  intros Hs Hex. unfold ACE_init. rewrite Hs.
  destruct (translate d f0) as [ty|e] eqn:H0; cbn.
  2:{ apply translate_Raise in H0 as [-> ?]. eauto. }
  destruct (for_each _ (re_findall re_const f1)) as [fl|e] eqn:H1; cbn.
  2:{ apply for_each_Raise in H1 as (c & _ & [-> ?]%translate_Raise). eauto. }
  destruct (for_each _ (re_findall re_const f2)) as [pe|e] eqn:H2; cbn.
  2:{ apply for_each_Raise in H2 as (c & _ & [-> ?]%translate_Raise). eauto. }
  exfalso. apply for_each_translate_Ok in H1, H2.
  assert (is_Some (d !! f0)) as H0'.
  { unfold translate, subscript in H0. by destruct (d !! f0); eauto. }
  apply Exists_cons in Hex as [Hex|Hex]; [by rewrite Hex in H0'; destruct H0'|].
  apply Exists_app in Hex as [Hex|Hex]; apply Exists_exists in Hex as (c & Hin & Hc).
  - rewrite Forall_forall in H1. specialize (H1 c Hin). rewrite Hc in H1.
    by destruct H1.
  - rewrite Forall_forall in H2. specialize (H2 c Hin). rewrite Hc in H2.
    by destruct H2.
Qed.

(** A trustee that is no key of [TRUSTEE] raises [KeyError] once the
    other fields are translated. *)
Lemma ACE_init_unknown_trustee s d f0 f1 f2 f3 f4 f5 :
  str_split ";" s = [f0; f1; f2; f3; f4; f5] ->
  is_Some (d !! f0) ->
  Forall (fun code => is_Some (d !! code)) (re_findall re_const f1) ->
  Forall (fun code => is_Some (d !! code)) (re_findall re_const f2) ->
  TRUSTEE !! f5 = None ->
  ACE_init W s d = Raise (KeyError f5).
Proof.
  intros Hs H0 H1 H2 H5. unfold ACE_init. rewrite Hs.
  destruct (translate_known d f0 H0) as [ty ->]. cbn.
  destruct (for_each_translate_known d _ H1) as [fl ->]. cbn.
  destruct (for_each_translate_known d _ H2) as [pe ->]. cbn.
  unfold subscript. by rewrite H5.
Qed.

(** No entry that was built has the fallback literal as its trustee. *)
Lemma ACE_init_never_fallback s d a :
  ACE_init W s d = Ok a -> trustee a <> Some "Unknown or invalid SID.".
Proof.
  intros (?&?&?&?&?& f5 &?& v &_&_&_&_&_&_&_&_& Hv & ->)%ACE_init_Ok.
  intros [= ->]. apply dict_of_lookup_Some in Hv. revert Hv.
  assert (Forall (fun kv => kv.2 <> "Unknown or invalid SID.") TRUSTEE_items)
    as Hall by (repeat constructor; done).
  rewrite Forall_forall in Hall. intros Hv. by apply (Hall _ Hv).
Qed.

(** A call with another target than ['service'] leaves the module-level
    table as it was. *)
Lemma SDDL_init_table_kept s tgt d :
  tgt <> Some "service" -> (SDDL_init W s tgt d).2 = d.
Proof. intros H. rewrite SDDL_init_table. by rewrite bool_decide_eq_false_2. Qed.

(** A call with the target ['service'] leaves the service meanings in the
    module-level table. *)
Lemma SDDL_init_table_service s d :
  (SDDL_init W s (Some "service") d).2 = service_assign d.
Proof. reflexivity. Qed.

End Behaviour.

(** ** Word characters *)

Section WordCharacters.

(** [\w] on a byte string is one of the sixty-three word characters. *)
Lemma word_is_word_character c : word c = str_mem c word_characters.
Proof. destruct c as [[] [] [] [] [] [] [] []]; reflexivity. Qed.

Lemma str_all_word s :
  str_all (fun c => str_mem c word_characters) s = str_all word s.
Proof.
  induction s as [|c s IH]; [done|]. cbn [str_all].
  by rewrite IH, word_is_word_character.
Qed.

Lemma token_pairs_step a b s :
  token_pairs (String a (String b s)) =
  if str_mem a word_characters && str_mem b word_characters
  then String a (String b "") :: token_pairs s
  else token_pairs (String b s).
Proof. reflexivity. Qed.

Lemma word_pairs_step a b s :
  word_pairs (String a (String b s)) =
  if word a && word b
  then String a (String b "") :: word_pairs s
  else word_pairs (String b s).
Proof. reflexivity. Qed.

Lemma token_pairs_word_pairs s : token_pairs s = word_pairs s.
Proof.
  cut (token_pairs s = word_pairs s /\
       forall a, token_pairs (String a s) = word_pairs (String a s));
    [tauto|].
  induction s as [|b s [IHs IHb]]; [done|]. split; [apply IHb|].
  intros a. rewrite token_pairs_step, word_pairs_step.
  rewrite <- !word_is_word_character.
  destruct (word a && word b); [by rewrite IHs|apply IHb].
Qed.

(** Every token is two word characters. *)
Lemma word_pairs_elem s t :
  t ∈ word_pairs s ->
  exists a b, t = String a (String b "") /\ word a = true /\ word b = true.
Proof.
  cut ((t ∈ word_pairs s ->
        exists a b, t = String a (String b "") /\
                    word a = true /\ word b = true) /\
       forall c, t ∈ word_pairs (String c s) ->
        exists a b, t = String a (String b "") /\
                    word a = true /\ word b = true);
    [tauto|].
  induction s as [|b s [IHs IHb]].
  - split; [by intros ?%elem_of_nil|]. intros c. by intros ?%elem_of_nil.
  - split; [apply IHb|]. intros a. rewrite word_pairs_step.
    destruct (word a && word b) eqn:Hw; [|apply IHb].
    apply andb_true_iff in Hw as [Ha Hb].
    intros [->|Hin]%elem_of_cons; [by exists a, b|by apply IHs].
Qed.

End WordCharacters.

(** * The claims *)

Section Claims.

Variable W : string -> option (string * string).

(** C1: the service meanings are not scoped to the call that asked for
    them.  After [SDDL("D:(A;;RP;;;BU)", target='service')] the
    module-level table maps RP to "Start", so the same string parsed next
    with no target gives the permission "Start", where a parse with the
    table as loaded gives "DS_READ_PROP": the shared table is changed by
    the service call, whatever string it parses. *)
Theorem service_meanings_leak :
  (SDDL_init W "D:(A;;RP;;;BU)" None ACCESS).1 =
    Ok (MkSDDL None "D:(A;;RP;;;BU)" (Some "DACL")
          [MkACE "A;;RP;;;BU" [] ["DS_READ_PROP"] "ACCESS_ALLOWED" "" ""
                 (Some "Users")]
          None None None None) /\
  (SDDL_init W "D:(A;;RP;;;BU)" None
     (SDDL_init W "D:(A;;RP;;;BU)" (Some "service") ACCESS).2).1 =
    Ok (MkSDDL None "D:(A;;RP;;;BU)" (Some "DACL")
          [MkACE "A;;RP;;;BU" [] ["Start"] "ACCESS_ALLOWED" "" ""
                 (Some "Users")]
          None None None None) /\
  (forall s d, (SDDL_init W s (Some "service") d).2 !! "RP" = Some "Start") /\
  (forall s, (SDDL_init W s (Some "service") ACCESS).2 <> ACCESS).
Proof.
  split; [by vm_compute|]. split; [by vm_compute|]. split.
  - intros s d. rewrite SDDL_init_table_service.
    apply service_assign_code. unfold service_items. set_solver.
  - intros s H. rewrite SDDL_init_table_service in H.
    apply (f_equal (fun d => d !! "RP")) in H. by vm_compute in H.
Qed.

(** C2: a code that is no key of the table is not kept as it is written.
    The entry type ZZ, the flag ZZ and the permission ZZ each make the
    constructor of [ACE] raise [KeyError], and so does, for such a code,
    every six-field entry with an entry type, a flag token or a
    permission token that is no key of the table passed in. *)
Theorem unknown_code_raises_KeyError :
  ACE_init W "ZZ;;;;;BU" ACCESS = Raise (KeyError "ZZ") /\
  ACE_init W "A;ZZ;;;;BU" ACCESS = Raise (KeyError "ZZ") /\
  ACE_init W "A;;ZZ;;;BU" ACCESS = Raise (KeyError "ZZ") /\
  (forall s d f0 f1 f2 f3 f4 f5,
     str_split ";" s = [f0; f1; f2; f3; f4; f5] ->
     Exists (fun code => d !! code = None)
            (f0 :: re_findall re_const f1 ++ re_findall re_const f2) ->
     exists code,
       d !! code = None /\ ACE_init W s d = Raise (KeyError code)).
Proof.
  split; [by vm_compute|]. split; [by vm_compute|]. split; [by vm_compute|].
  apply ACE_init_unknown_code.
Qed.

(** C3: the trustee of an entry is looked up by subscript, so a trustee
    that is no key of [TRUSTEE] raises [KeyError]: the entry
    "A;;RC;;;S-1-5-18" is not built, and no entry that is built has the
    trustee "Unknown or invalid SID.".  The owner and group path tests
    the key first: it never raises, gives a string that is not empty, and
    gives "Unknown" when the code is no key and WMI has no account, as
    for the owner of "O:S-1-5-18D:(A;;RC;;;BU)". *)
Theorem entry_trustee_raises_KeyError :
  ACE_init W "A;;RC;;;S-1-5-18" ACCESS = Raise (KeyError "S-1-5-18") /\
  (forall s d a,
     ACE_init W s d = Ok a -> trustee a <> Some "Unknown or invalid SID.") /\
  (forall sid, exists name,
     account_of W sid = Ok (Some name) /\ name <> "" /\
     (TRUSTEE !! sid = None -> TranslateSid W sid = None ->
      name = "Unknown")) /\
  (SDDL_init no_account "O:S-1-5-18D:(A;;RC;;;BU)" None ACCESS).1 =
    Ok (MkSDDL None "O:S-1-5-18D:(A;;RC;;;BU)" (Some "DACL")
          [MkACE "A;;RC;;;BU" [] ["READ_CONTROL"] "ACCESS_ALLOWED" "" ""
                 (Some "Users")]
          None None (Some "S-1-5-18") (Some "Unknown")).
Proof.
  split; [by vm_compute|]. split; [apply ACE_init_never_fallback|].
  split; [|by vm_compute].
  intros sid. destruct (account_of_total W sid) as (n & ? & ? & _ & _ & ?).
  by exists n.
Qed.

(** C4: with the table as loaded, parsing "D:(A;;CCLCSWLOCRRC;;;AU)" with
    no target raises [KeyError] for CR, which is no key of [ACCESS]; no
    descriptor is returned. *)
Theorem example_descriptor_raises_KeyError :
  (SDDL_init W "D:(A;;CCLCSWLOCRRC;;;AU)" None ACCESS).1
    = Raise (KeyError "CR") /\
  (SDDL_init W "D:(A;;CCLCSWLOCRRC;;;AU)" None ACCESS).2 = ACCESS /\
  re_findall re_const "CCLCSWLOCRRC" = ["CC"; "LC"; "SW"; "LO"; "CR"; "RC"] /\
  ACCESS !! "CR" = None.
Proof.
  split; [by vm_compute|]. split; [by apply SDDL_init_table_kept|].
  split; by vm_compute.
Qed.

(** C5: a string with no owner, group or ACL section is not refused.
    For "hello" and for the empty string the three searches find nothing
    and the constructor returns an object with every attribute unset;
    for no string at all is [InvalidSddlStringError] raised. *)
Theorem no_section_is_not_an_error :
  (re_search re_owner "hello" = None /\ re_search re_group "hello" = None /\
   re_search re_acl "hello" = None) /\
  (SDDL_init W "hello" None ACCESS).1 =
    Ok (MkSDDL None "hello" None [] None None None None) /\
  (SDDL_init W "" None ACCESS).1 =
    Ok (MkSDDL None "" None [] None None None None) /\
  (forall s tgt d, (SDDL_init W s tgt d).1 <> Raise InvalidSddlStringError).
Proof.
  split; [by vm_compute|]. split; [by vm_compute|]. split; [by vm_compute|].
  intros s tgt d. apply SDDL_loop_no_string_error.
Qed.

(** C6: an entry string that [split(';')] does not cut into exactly six
    fields makes the constructor of [ACE] raise [InvalidAceStringError]. *)
Theorem field_count_checked s d :
  length (str_split ";" s) <> 6 ->
  ACE_init W s d = Raise InvalidAceStringError.
Proof.
  intros Hn. unfold ACE_init.
  by destruct (str_split ";" s) as [|f0 [|f1 [|f2 [|f3 [|f4 [|f5 [|]]]]]]].
Qed.

(** C7: a six-field entry string does not always give an entry.  The
    entry "A;;CCLCSWLOCRRC;;;AU" of the module's own example has six
    fields, and the constructor of [ACE] raises [KeyError] for its
    permission CR with the table as loaded. *)
Theorem six_fields_raise_KeyError :
  length (str_split ";" "A;;CCLCSWLOCRRC;;;AU") = 6 /\
  re_findall re_const "CCLCSWLOCRRC" = ["CC"; "LC"; "SW"; "LO"; "CR"; "RC"] /\
  ACE_init W "A;;CCLCSWLOCRRC;;;AU" ACCESS = Raise (KeyError "CR").
Proof. repeat split; by vm_compute. Qed.

(** C8: the entry "(A;;RP;;;BU)" read with the target ['service'] has the
    permission "Start", and "DS_READ_PROP" with the table as loaded.  The
    call assigns thirteen distinct codes their service meaning in the
    table it reads, each different from what the loaded table holds, and
    leaves every other code as it was. *)
Theorem service_entry_RP_is_Start :
  (SDDL_init W "D:(A;;RP;;;BU)" (Some "service") ACCESS).1 =
    Ok (MkSDDL (Some "service") "D:(A;;RP;;;BU)" (Some "DACL")
          [MkACE "A;;RP;;;BU" [] ["Start"] "ACCESS_ALLOWED" "" ""
                 (Some "Users")]
          None None None None) /\
  for_each (fun perms => ACE_init W perms (service_assign ACCESS))
           (re_findall re_perms "(A;;RP;;;BU)") =
    Ok [MkACE "A;;RP;;;BU" [] ["Start"] "ACCESS_ALLOWED" "" ""
              (Some "Users")] /\
  for_each (fun perms => ACE_init W perms ACCESS)
           (re_findall re_perms "(A;;RP;;;BU)") =
    Ok [MkACE "A;;RP;;;BU" [] ["DS_READ_PROP"] "ACCESS_ALLOWED" "" ""
              (Some "Users")] /\
  length service_codes = 13 /\ NoDup service_codes /\
  (forall d k v, (k, v) ∈ service_items -> service_assign d !! k = Some v) /\
  (forall d k, k ∉ service_codes -> service_assign d !! k = d !! k) /\
  Forall (fun kv => ACCESS !! kv.1 <> Some kv.2) service_items.
Proof.
  split; [by vm_compute|]. split; [by vm_compute|]. split; [by vm_compute|].
  split; [done|]. split; [by apply (bool_decide_unpack (NoDup service_codes)); vm_compute|].
  split; [intros d k v; apply service_assign_code|].
  split; [apply service_assign_other|].
  unfold service_items. repeat constructor; by vm_compute.
Qed.

(** C9: an owner section is found only at the start of the string and
    only when a "D:", "G:" or "S:" stands right after it, a group section
    only when a "D:", "O:" or "S:" stands right after it.  So for a
    string that is "O:" and a code with no colon, whatever the target and
    the table, nothing is found: the constructor raises nothing and
    leaves the owner, like every other attribute, unset. *)
Theorem owner_section_needs_a_successor :
  (forall s m, re_search re_owner s = Some m ->
     exists body x rest,
       s = "O:" +:+ body +:+ String x (String ":" rest) /\
       body <> "" /\ one_of "DGS" x = true /\ group m = "O:" +:+ body) /\
  (forall s m, re_search re_group s = Some m ->
     exists before body x rest,
       s = before +:+ "G:" +:+ body +:+ String x (String ":" rest) /\
       body <> "" /\ one_of "DOS" x = true /\ group m = "G:" +:+ body) /\
  (forall code tgt d, str_mem ":" code = false ->
     (SDDL_init W ("O:" +:+ code) tgt d).1 =
       Ok (MkSDDL tgt ("O:" +:+ code) None [] None None None None)).
Proof.
  split; [|split].
  - intros s m (body & x & rest & ? & ? & _ & ? & ?)%re_owner_search.
    by exists body, x, rest.
  - intros s m (before & body & x & rest & ? & ? & _ & ? & ?)%re_group_search.
    by exists before, body, x, rest.
  - intros code tgt d Hc. apply SDDL_init_no_section.
    + by apply owner_alone_no_owner.
    + by apply owner_alone_no_group.
    + by apply owner_alone_no_acl.
Qed.

(** C10: the tokens of a flags or permissions field are what [re_const]
    finds: from left to right, two characters that are both word
    characters (a letter, a digit or the underscore) make a token, and a
    character that does not start such a pair is passed over; every token
    is two word characters.  In a field of word characters alone, an odd
    one out at the end is in no token: after an even number of word
    characters one more character adds nothing, and the tokens are the
    pairs of the characters before it.  The field "GAX" gives the one
    token GA, and an entry with "GAX" as its flags and as its permissions
    is built with "GENERIC_ALL" alone in both.  A character that is no
    word character shifts the pairs: "-GA" gives GA, "G-A" gives nothing
    and "G-AGA" gives AG. *)
Theorem field_tokens_are_word_pairs :
  (forall c, word c = str_mem c word_characters) /\
  (forall s, re_findall re_const s = token_pairs s) /\
  (forall s t, t ∈ re_findall re_const s ->
     exists a b, t = String a (String b "") /\
                 str_mem a word_characters = true /\
                 str_mem b word_characters = true) /\
  (forall s c,
     str_all (fun c => str_mem c word_characters) s = true ->
     Nat.Even (String.length s) ->
     re_findall re_const (s +:+ String c "") = re_findall re_const s /\
     re_findall re_const s = pairs s /\
     String.concat "" (re_findall re_const s) = s) /\
  re_findall re_const "GAX" = ["GA"] /\
  re_findall re_const "-GA" = ["GA"] /\
  re_findall re_const "G-A" = [] /\
  re_findall re_const "G-AGA" = ["AG"] /\
  ACE_init W "A;GAX;GAX;;;BU" ACCESS =
    Ok (MkACE "A;GAX;GAX;;;BU" ["GENERIC_ALL"] ["GENERIC_ALL"]
              "ACCESS_ALLOWED" "" "" (Some "Users")) /\
  (forall s d a, ACE_init W s d = Ok a ->
     exists f0 f1 f2 f3 f4 f5 names,
       str_split ";" s = [f0; f1; f2; f3; f4; f5] /\
       for_each (translate d) (re_findall re_const f1) = Ok (flags a) /\
       for_each (translate d) (re_findall re_const f2) = Ok names /\
       perms a = merge_sort String.le names).
Proof.
  split; [apply word_is_word_character|].
  split; [intros s; by rewrite findall_re_const, token_pairs_word_pairs|].
  split.
  { intros s t Ht. rewrite findall_re_const in Ht.
    apply word_pairs_elem in Ht as (a & b & -> & Ha & Hb).
    exists a, b. by rewrite <- !word_is_word_character. }
  split.
  { intros s c Hs Hev. rewrite str_all_word in Hs.
    by apply findall_re_const_odd. }
  do 5 (split; [by vm_compute|]).
  intros s d a (f0&f1&f2&f3&f4&f5&names&v&?&?&?&?&?&_)%ACE_init_Ok.
  by exists f0, f1, f2, f3, f4, f5, names.
Qed.

End Claims.

(** ** Entries whose codes are all known *)

(** For a six-field entry string whose type, flag and permission codes are
    keys of the table and whose trustee is a key of [TRUSTEE], the
    constructor of [ACE] returns an entry: its flags are the translations
    of the flag tokens in the order of the field, its permissions are the
    translations of the permission tokens put in ascending order. *)
Theorem known_codes_give_sorted_entry W s d f0 f1 f2 f3 f4 f5 :
  str_split ";" s = [f0; f1; f2; f3; f4; f5] ->
  is_Some (d !! f0) ->
  Forall (fun code => is_Some (d !! code)) (re_findall re_const f1) ->
  Forall (fun code => is_Some (d !! code)) (re_findall re_const f2) ->
  is_Some (TRUSTEE !! f5) ->
  exists a names,
    ACE_init W s d = Ok a /\
    Forall2 (fun code name => translate d code = Ok name)
            (re_findall re_const f1) (flags a) /\
    Forall2 (fun code name => translate d code = Ok name)
            (re_findall re_const f2) names /\
    perms a ≡ₚ names /\ Sorted String.le (perms a).
Proof.
  intros Hs H0 H1 H2 H5.
  destruct (ACE_init_known W s d _ _ _ _ _ _ Hs H0 H1 H2 H5) as [a Ha].
  pose proof (ACE_init_perms_sorted W _ _ _ Ha) as Hsorted.
  apply ACE_init_Ok in Ha as Hok.
  destruct Hok as (g0&g1&g2&g3&g4&g5&names&v&Hs'&_&Hfl&Hpe&Hp&_).
  rewrite Hs in Hs'. injection Hs' as <- <- <- <- <- <-.
  exists a, names. split; [done|].
  split; [by apply for_each_Ok|]. split; [by apply for_each_Ok|].
  split; [|done]. rewrite Hp. apply merge_sort_Permutation.
Qed.

(** ** The theorems at concrete inputs *)

Lemma known_codes_give_sorted_entry_witness :
  exists a names,
    ACE_init no_account "A;CI;WPRP;;;BU" ACCESS = Ok a /\
    Forall2 (fun code name => translate ACCESS code = Ok name)
            (re_findall re_const "CI") (flags a) /\
    Forall2 (fun code name => translate ACCESS code = Ok name)
            (re_findall re_const "WPRP") names /\
    perms a ≡ₚ names /\ Sorted String.le (perms a).
Proof.
  apply (known_codes_give_sorted_entry no_account "A;CI;WPRP;;;BU" ACCESS
           "A" "CI" "WPRP" "" "" "BU").
  - reflexivity.
  - vm_compute. eauto.
  - repeat constructor; vm_compute; eauto.
  - repeat constructor; vm_compute; eauto.
  - vm_compute. eauto.
Defined.

Lemma field_count_checked_witness :
  ACE_init no_account "A;;RC;;;BU;EXTRA" ACCESS = Raise InvalidAceStringError.
Proof.
  apply (field_count_checked no_account "A;;RC;;;BU;EXTRA" ACCESS).
  vm_compute. lia.
Defined.

Lemma service_entry_RP_is_Start_witness :
  service_assign ACCESS !! "RP" = Some "Start".
Proof.
  apply (proj1 (proj2 (proj2 (proj2 (proj2 (proj2
           (service_entry_RP_is_Start no_account))))))).
  unfold service_items. set_solver.
Defined.

Lemma owner_section_needs_a_successor_witness :
  (SDDL_init no_account "O:BA" None ACCESS).1 =
    Ok (MkSDDL None "O:BA" None [] None None None None).
Proof.
  apply (proj2 (proj2 (owner_section_needs_a_successor no_account))
           "BA" None ACCESS).
  reflexivity.
Defined.

Lemma field_tokens_are_word_pairs_witness :
  re_findall re_const "GAX" = re_findall re_const "GA" /\
  re_findall re_const "GA" = pairs "GA" /\
  String.concat "" (re_findall re_const "GA") = "GA".
Proof.
  apply (proj1 (proj2 (proj2 (proj2
           (field_tokens_are_word_pairs no_account)))) "GA" "X"%char).
  - reflexivity.
  - exists 1. reflexivity.
Defined.

(** The last character of a field with an odd number of characters is
    not always left out: in "-GA" the hyphen is passed over and the last
    character is the second half of the token GA, which the field of
    the two characters before it does not give. *)
Lemma odd_field_may_keep_last_character :
  (String.length "-GA" = 3 /\
   re_findall re_const "-GA" = ["GA"] /\
   re_findall re_const "-G" = [] /\
   ACE_init no_account "A;;-GA;;;BU" ACCESS =
     Ok (MkACE "A;;-GA;;;BU" [] ["GENERIC_ALL"] "ACCESS_ALLOWED" "" ""
               (Some "Users"))) /\
  ~ (forall s c, Nat.Even (String.length s) ->
       re_findall re_const (s +:+ String c "") = re_findall re_const s).
Proof.
  split; [repeat split; by vm_compute|].
  intros H. assert (Nat.Even (String.length "-G")) as Hev by (by exists 1).
  specialize (H "-G" "A"%char Hev). by vm_compute in H.
Qed.

(** * Further properties of the module *)

(** ** Where a search succeeds *)

Section Found.

Lemma str_all_app p s t : str_all p (s +:+ t) = str_all p s && str_all p t.
Proof.
  induction s as [|c s IH]; [done|]. norm_app. cbn. rewrite IH.
  by rewrite andb_assoc.
Qed.

Lemma plus_loop_stops p k pos g s :
  stops p s = true -> plus_loop p k pos g s = None.
Proof. destruct s as [|c s]; [done|]. cbn. by destruct (p c). Qed.

(** [class+] takes the longest run first: when the rest of the pattern
    matches after the whole run, that is the match. *)
Lemma plus_loop_longest p k pos g run rest st :
  run <> "" -> str_all p run = true -> stops p rest = true ->
  k (MState (pos + String.length run) rest g) = Some st ->
  plus_loop p k pos g (run +:+ rest) = Some st.
Proof.
  revert pos. induction run as [|c run IH]; intros pos Hne Hall Hst Hk; [done|].
  cbn in Hall. apply andb_true_iff in Hall as [Hc Hall].
  norm_app. cbn [plus_loop]. rewrite Hc.
  destruct run as [|c' run'].
  - norm_app. rewrite (plus_loop_stops _ _ _ _ _ Hst).
    cbn in Hk. by replace (pos + 1) with (S pos) in Hk by lia.
  - rewrite IH; [done..|].
    cbn [String.length] in *.
    by replace (S pos + S (String.length run'))
      with (pos + S (S (String.length run'))) by lia.
Qed.

(** When the rest of the pattern does not match after the whole run but
    matches one character earlier, that is the match. *)
Lemma plus_loop_back_one p k pos g run x rest st :
  run <> "" -> str_all p run = true -> p x = true -> stops p rest = true ->
  k (MState (pos + String.length run + 1) rest g) = None ->
  k (MState (pos + String.length run) (String x rest) g) = Some st ->
  plus_loop p k pos g (run +:+ String x rest) = Some st.
Proof.
  revert pos. induction run as [|c run IH]; intros pos Hne Hall Hx Hst Hk1 Hk;
    [done|].
  cbn in Hall. apply andb_true_iff in Hall as [Hc Hall].
  norm_app. cbn [plus_loop]. rewrite Hc.
  destruct run as [|c' run'].
  - norm_app. cbn [plus_loop]. rewrite Hx.
    rewrite (plus_loop_stops _ _ _ _ _ Hst). cbn in Hk1, Hk.
    replace (pos + 1 + 1) with (S (S pos)) in Hk1 by lia. rewrite Hk1.
    by replace (pos + 1) with (S pos) in Hk by lia.
  - rewrite IH; [done..| |].
    + cbn [String.length] in *.
      by replace (S pos + S (String.length run') + 1)
        with (pos + S (S (String.length run')) + 1) by lia.
    + cbn [String.length] in *.
      by replace (S pos + S (String.length run'))
        with (pos + S (S (String.length run'))) by lia.
Qed.

(** A search passes over a prefix in which the pattern matches nowhere. *)
Lemma search_from_skip r subject pos pre rest :
  (forall a b, pre = a +:+ b -> b <> "" ->
     rmatch r (MState (pos + String.length a) (b +:+ rest) None) Some = None) ->
  search_from r subject pos (pre +:+ rest)
    = search_from r subject (pos + String.length pre) rest.
Proof.
  revert pos. induction pre as [|c pre IH]; intros pos H.
  - norm_app. cbn. by rewrite Nat.add_0_r.
  - norm_app. cbn [search_from].
    pose proof (H "" (String c pre) eq_refl ltac:(done)) as H0.
    norm_app_in H0. cbn in H0. rewrite Nat.add_0_r in H0. rewrite H0, IH.
    + cbn. by replace (S (pos + String.length pre))
        with (pos + S (String.length pre)) by lia.
    + intros a b -> Hb.
      specialize (H (String c a) b). norm_app_in H. cbn in H.
      replace (pos + S (String.length a)) with (S pos + String.length a)
        in H by lia.
      by apply H.
Qed.

Lemma search_from_miss r subject pos c s :
  rmatch r (MState pos (String c s) None) Some = None ->
  search_from r subject pos (String c s) = search_from r subject (S pos) s.
Proof. intros H. cbn [search_from]. by rewrite H. Qed.

Lemma search_from_hit r subject pos s st :
  rmatch r (MState pos s None) Some = Some st ->
  search_from r subject pos s = Some (MatchObj subject pos st).
Proof. intros H. destruct s; cbn [search_from]; by rewrite H. Qed.

End Found.

(** ** The three sections of a descriptor *)

Section Sections.

Variable W : string -> option (string * string).

Lemma one_of_DS x :
  one_of "DS" x = true -> x = "D"%char \/ x = "S"%char.
Proof.
  unfold one_of. intros H%bool_decide_eq_true_1. cbn in H.
  repeat (apply elem_of_cons in H as [->|H]; [tauto|]).
  by apply elem_of_nil in H.
Qed.

(** [re_acl] matches a "D:" or an "S:" and then everything up to the end
    of the text, which has no line feed but possibly a last one. *)
Lemma re_acl_rmatch_end pos s st :
  rmatch re_acl (MState pos s None) Some = Some st ->
  exists x body tl,
    s = String x (String ":" body) +:+ tl /\ one_of "DS" x = true /\
    body <> "" /\ str_all dot body = true /\ at_eol tl = true /\
    m_pos st = pos + (2 + String.length body).
Proof.
  unfold re_acl, cat_all. cbn [rmatch m_pos]. intros H.
  apply one_char_Some in H as (x & s1 & H1 & Hx & H).
  apply one_char_Some in H as (c2 & s2 & H2 & ->%eqb_true_eq & H).
  cbn in H1, H2, H. subst.
  apply plus_loop_Some in H as (body & tl & -> & Hne & Hall & H).
  cbn in H. destruct (at_eol tl) eqn:Htl; [|done]. injection H as <-.
  exists x, body, tl. norm_app. cbn. repeat split; [done..|lia].
Qed.

(** The ACL section that is found is a "D:" or an "S:" and the rest of
    the string. *)
Lemma re_acl_search s m :
  re_search re_acl s = Some m ->
  exists before x body tl,
    s = before +:+ String x (String ":" body) +:+ tl /\
    one_of "DS" x = true /\ body <> "" /\ str_all dot body = true /\
    at_eol tl = true /\ group m = String x (String ":" body).
Proof.
  intros H. apply search_from_Some in H as (skipped & rest & st & -> & H & ->).
  apply re_acl_rmatch_end in H as (x & body & tl & -> & ? & ? & ? & ? & Hend).
  exists skipped, x, body, tl. repeat split; [done..|].
  unfold group. cbn [mo_start mo_end mo_subject]. rewrite Hend.
  replace (0 + String.length skipped + (2 + String.length body)
           - (0 + String.length skipped))
    with (String.length (String x (String ":" body))) by (cbn; lia).
  apply Str.substring_middle.
Qed.

(** In the text of an owner or a group section, [re_non_acl] finds what
    follows the colon. *)
Lemma re_non_acl_section l body :
  body <> "" -> str_all (none_of ":()") body = true ->
  group_of (re_search re_non_acl (String l (String ":" body))) = Ok body.
Proof.
  intros Hne Hall. unfold re_search.
  rewrite search_from_miss.
  2:{ unfold re_non_acl, cat_all. cbn [rmatch m_pos m_grp m_rest plus_loop].
      destruct (none_of ":()" l); [|done]. cbn. by destruct body. }
  rewrite search_from_miss by done.
  assert (exists st, rmatch re_non_acl (MState 2 body None) Some = Some st /\
                     m_pos st = 2 + String.length body) as (st & Hst & Hpos).
  { unfold re_non_acl, cat_all. cbn [rmatch m_pos m_grp m_rest].
    eexists. split.
    - rewrite <- (Str.app_nil_r body) at 1.
      apply plus_loop_longest; [done..|]. by cbn.
    - done. }
  rewrite (search_from_hit _ _ _ _ _ Hst).
  unfold group_of, group. cbn [mo_start mo_end mo_subject]. rewrite Hpos.
  f_equal.
  replace (2 + String.length body - 2) with (String.length body) by lia.
  rewrite <- (Str.app_nil_r body) at 2.
  exact (Str.substring_middle (String l ":") body "").
Qed.

(** The turn of the loop for an owner section. *)
Lemma SDDL_part_owner d self m body :
  body <> "" -> str_all (none_of ":()") body = true ->
  group m = "O:" +:+ body ->
  exists name,
    account_of W body = Ok (Some name) /\ name <> "" /\
    SDDL_part W d self (Some m) =
      Ok (MkSDDL (target self) (sddl_string self) (sddl_type self)
                 (acl self) (group_sid self) (group_account self)
                 (Some body) (Some name)).
Proof.
  intros Hne Hall Hm.
  destruct (account_of_total W body) as (name & Hacc & Hname & _).
  exists name. split; [done|]. split; [done|].
  unfold SDDL_part. rewrite Hm. norm_app.
  assert (group_of (re_match re_type (String "O" (String ":" body))) = Ok "O")
    as -> by (cbn; by destruct body).
  cbn [mbind res_bind]. cbn [String.eqb Ascii.eqb Bool.eqb andb orb].
  rewrite (re_non_acl_section "O" body Hne Hall). cbn [mbind res_bind].
  by rewrite Hacc.
Qed.

(** The turn of the loop for a group section. *)
Lemma SDDL_part_group d self m body :
  body <> "" -> str_all (none_of ":()") body = true ->
  group m = "G:" +:+ body ->
  exists name,
    account_of W body = Ok (Some name) /\ name <> "" /\
    SDDL_part W d self (Some m) =
      Ok (MkSDDL (target self) (sddl_string self) (sddl_type self)
                 (acl self) (Some body) (Some name)
                 (owner_sid self) (owner_account self)).
Proof.
  intros Hne Hall Hm.
  destruct (account_of_total W body) as (name & Hacc & Hname & _).
  exists name. split; [done|]. split; [done|].
  unfold SDDL_part. rewrite Hm. norm_app.
  assert (group_of (re_match re_type (String "G" (String ":" body))) = Ok "G")
    as -> by (cbn; by destruct body).
  cbn [mbind res_bind]. cbn [String.eqb Ascii.eqb Bool.eqb andb orb].
  rewrite (re_non_acl_section "G" body Hne Hall). cbn [mbind res_bind].
  by rewrite Hacc.
Qed.

(** The turn of the loop for an ACL section. *)
Lemma SDDL_part_acl d self m x body :
  one_of "DS" x = true -> group m = String x (String ":" body) ->
  SDDL_part W d self (Some m) =
    aces ← for_each (fun perms => ACE_init W perms d)
                    (re_findall re_perms (String x (String ":" body)));
    Ok (MkSDDL (target self) (sddl_string self) (Some (acl_name x))
               (acl self ++ aces) (group_sid self) (group_account self)
               (owner_sid self) (owner_account self)).
Proof.
  intros Hx Hm. unfold SDDL_part. rewrite Hm.
  apply one_of_DS in Hx as [-> | ->].
  - assert (group_of (re_match re_type (String "D" (String ":" body))) = Ok "D")
      as -> by (cbn; by destruct body).
    cbn [mbind res_bind]. cbn [String.eqb Ascii.eqb Bool.eqb andb orb].
    change (contains SDDL_TYPE "D") with true.
    change (subscript SDDL_TYPE "D") with (@Ok string "DACL"). done.
  - assert (group_of (re_match re_type (String "S" (String ":" body))) = Ok "S")
      as -> by (cbn; by destruct body).
    cbn [mbind res_bind]. cbn [String.eqb Ascii.eqb Bool.eqb andb orb].
    change (contains SDDL_TYPE "S") with true.
    change (subscript SDDL_TYPE "S") with (@Ok string "SACL"). done.
Qed.

End Sections.

(** ** What the constructor of [SDDL] returns *)

Section Constructor.

Variable W : string -> option (string * string).

Lemma owner_step d self s :
  exists sid account,
    owner_of W s sid account /\
    SDDL_part W d self (re_search re_owner s) =
      Ok (MkSDDL (target self) (sddl_string self) (sddl_type self)
                 (acl self) (group_sid self) (group_account self)
                 (from_option Some (owner_sid self) sid)
                 (from_option Some (owner_account self) account)).
Proof.
  destruct (re_search re_owner s) as [m|] eqn:Hm.
  - apply re_owner_search in Hm as Hs.
    destruct Hs as (o & x & rest & -> & Hne & Hall & Hx & Hg).
    destruct (SDDL_part_owner W d self m o Hne Hall Hg) as (n & Hacc & Hn & ->).
    exists (Some o), (Some n). split; [|done].
    right. by exists o, x, rest, n.
  - exists None, None. split; [by left|]. by destruct self.
Qed.

Lemma group_step d self s :
  exists sid account,
    group_of_string W s sid account /\
    SDDL_part W d self (re_search re_group s) =
      Ok (MkSDDL (target self) (sddl_string self) (sddl_type self)
                 (acl self)
                 (from_option Some (group_sid self) sid)
                 (from_option Some (group_account self) account)
                 (owner_sid self) (owner_account self)).
Proof.
  destruct (re_search re_group s) as [m|] eqn:Hm.
  - apply re_group_search in Hm as Hs.
    destruct Hs as (before & g & x & rest & -> & Hne & Hall & Hx & Hg).
    destruct (SDDL_part_group W d self m g Hne Hall Hg) as (n & Hacc & Hn & ->).
    exists (Some g), (Some n). split; [|done].
    right. by exists before, g, x, rest, n.
  - exists None, None. split; [by left|]. by destruct self.
Qed.

(** The constructor, section by section.  The owner and the group are
    set as [owner_of] and [group_of_string] say.  With no ACL section the
    object is returned with no type and no entry.  With an ACL section,
    which is a "D:" or an "S:" and the rest of the string, the entries
    are built from the parenthesised texts of the section, in their
    order, with the table as the call leaves it; the first exception of
    an entry is the exception of the call. *)
Theorem SDDL_init_by_sections s tgt d :
  exists osid oacc gsid gacc,
    owner_of W s osid oacc /\ group_of_string W s gsid gacc /\
    ((re_search re_acl s = None /\
      (SDDL_init W s tgt d).1 =
        Ok (MkSDDL tgt s None [] gsid gacc osid oacc)) \/
     (exists before x body tl,
        s = before +:+ String x (String ":" body) +:+ tl /\
        one_of "DS" x = true /\ body <> "" /\ str_all dot body = true /\
        at_eol tl = true /\
        (SDDL_init W s tgt d).1 =
          aces ← for_each
                   (fun perms => ACE_init W perms (SDDL_init W s tgt d).2)
                   (re_findall re_perms (String x (String ":" body)));
          Ok (MkSDDL tgt s (Some (acl_name x)) aces gsid gacc osid oacc))).
Proof.
  rewrite SDDL_init_table. unfold SDDL_init. cbn [fst SDDL_loop].
  set (d' := if bool_decide (tgt = Some "service") then service_assign d else d).
  set (self := MkSDDL tgt s None [] None None None None).
  destruct (owner_step d' self s) as (osid & oacc & Ho & ->).
  cbn [mbind res_bind].
  match goal with |- context [SDDL_part W d' ?self' (re_search re_group s)] =>
    destruct (group_step d' self' s) as (gsid & gacc & Hg & ->) end.
  cbn [mbind res_bind target sddl_string sddl_type acl group_sid group_account
       owner_sid owner_account self from_option].
  exists osid, oacc, gsid, gacc. split; [done|]. split; [done|].
  destruct (re_search re_acl s) as [m|] eqn:Hm.
  - right. apply re_acl_search in Hm as Hs.
    destruct Hs as (before & x & body & tl & -> & Hx & Hne & Hall & Htl & Hgm).
    exists before, x, body, tl. repeat split; [done..|].
    rewrite (SDDL_part_acl W d' _ m x body Hx Hgm).
    cbn [target sddl_string sddl_type acl group_sid group_account
         owner_sid owner_account app].
    by destruct osid, oacc, gsid, gacc, (for_each _ _).
  - left. split; [done|]. cbn [SDDL_part mbind res_bind].
    by destruct osid, oacc, gsid, gacc.
Qed.

End Constructor.

(** ** The entries of an ACL section *)

Section EntryTexts.

(** What [re.findall] lists comes from a match somewhere in the text. *)
Lemma findall_from_elem r pre skip s x :
  x ∈ findall_from r (pre +:+ s) skip (String.length pre) s ->
  exists a b st,
    s = a +:+ b /\
    rmatch r (MState (String.length (pre +:+ a)) b None) Some = Some st /\
    x = findall_item r (MatchObj (pre +:+ s) (String.length (pre +:+ a)) st).
Proof.
  revert pre skip. induction s as [|c s IH]; intros pre skip Hx.
  - destruct skip; cbn [findall_from] in Hx; [|by apply elem_of_nil in Hx].
    destruct (rmatch r _ Some) as [st|] eqn:Hm; [|by apply elem_of_nil in Hx].
    apply list_elem_of_singleton in Hx as ->.
    exists "", "", st. by rewrite !Str.app_nil_r.
  - assert (forall skip',
              x ∈ findall_from r (pre +:+ String c s) skip'
                    (S (String.length pre)) s ->
              exists a b st,
                String c s = a +:+ b /\
                rmatch r (MState (String.length (pre +:+ a)) b None) Some
                  = Some st /\
                x = findall_item r
                      (MatchObj (pre +:+ String c s)
                                (String.length (pre +:+ a)) st)) as Hrec.
    { intros skip' Hx'.
      specialize (IH (pre +:+ String c "") skip').
      rewrite Str.snoc_app, Str.length_app in IH. cbn [String.length] in IH.
      replace (String.length pre + 1) with (S (String.length pre)) in IH by lia.
      destruct (IH Hx') as (a & b & st & -> & Hm & ->).
      exists (String c a), b, st. norm_app.
      rewrite Str.snoc_app in Hm. by rewrite !Str.snoc_app. }
    destruct skip as [|n]; cbn [findall_from] in Hx; [|by apply (Hrec n)].
    destruct (rmatch r _ Some) as [st|] eqn:Hm; [|by apply (Hrec 0)].
    apply elem_of_cons in Hx as [->|Hx]; [|by eapply Hrec].
    exists "", (String c s), st. by rewrite !Str.app_nil_r.
Qed.

Lemma re_perms_rmatch pos s st :
  rmatch re_perms (MState pos s None) Some = Some st ->
  exists e tl,
    s = "(" +:+ e +:+ ")" +:+ tl /\ e <> "" /\
    str_all (none_of "()") e = true /\
    m_grp st = Some (S pos, S pos + String.length e).
Proof.
  unfold re_perms, cat_all. cbn [rmatch m_pos m_grp m_rest]. intros H.
  apply one_char_Some in H as (c1 & s1 & H1 & ->%eqb_true_eq & H).
  cbn in H1, H. subst.
  apply plus_loop_Some in H as (e & tl & -> & Hne & Hall & H).
  apply one_char_Some in H as (c2 & s2 & H2 & ->%eqb_true_eq & H).
  cbn in H2, H. subst. injection H as <-.
  exists e, s2. by norm_app.
Qed.

(** The texts that [re_perms] finds are not empty and have no
    parenthesis: each stands between a "(" and the next ")". *)
Lemma re_perms_findall_elem s e :
  e ∈ re_findall re_perms s ->
  e <> "" /\ str_all (none_of "()") e = true /\
  exists before tl, s = before +:+ "(" +:+ e +:+ ")" +:+ tl.
Proof.
  intros H. apply (findall_from_elem re_perms "" 0 s e) in H
    as (a & b & st & -> & Hm & ->).
  apply re_perms_rmatch in Hm as (e & tl & -> & Hne & Hall & Hg).
  assert (findall_item re_perms
            (MatchObj ("" +:+ a +:+ "(" +:+ e +:+ ")" +:+ tl)
                      (String.length ("" +:+ a)) st) = e) as ->.
  { unfold findall_item. cbn [has_group re_perms cat_all orb mo_end mo_subject].
    rewrite Hg. norm_app. cbn [has_group lit orb].
    replace (S (String.length a) + String.length e - S (String.length a))
      with (String.length e) by lia.
    replace (S (String.length a)) with (String.length (a +:+ "("))
      by (rewrite Str.length_app; cbn; lia).
    rewrite <- (Str.snoc_app a "(" (e +:+ String ")" tl)).
    apply Str.substring_middle. }
  split; [done|]. split; [done|]. by exists a, tl.
Qed.

End EntryTexts.

(** ** Exceptions and invariants of the two constructors *)

Section Outcomes.

Variable W : string -> option (string * string).

Lemma wrong_field_count_raises s d :
  length (str_split ";" s) <> 6 ->
  ACE_init W s d = Raise InvalidAceStringError.
Proof.
  intros Hn. unfold ACE_init.
  by destruct (str_split ";" s) as [|f0 [|f1 [|f2 [|f3 [|f4 [|f5 [|]]]]]]].
Qed.

(** An exception of the constructor of [ACE] names its cause. *)
Lemma ACE_init_Raise_cause s d e :
  ACE_init W s d = Raise e ->
  (e = InvalidAceStringError /\ length (str_split ";" s) <> 6) \/
  (length (str_split ";" s) = 6 /\
   exists code, e = KeyError code /\
                (d !! code = None \/ TRUSTEE !! code = None)).
Proof.
  unfold ACE_init.
  destruct (str_split ";" s) as [|f0 [|f1 [|f2 [|f3 [|f4 [|f5 [|]]]]]]];
    try match goal with
        | |- Raise _ = Raise _ -> _ => intros [= <-]; left; by cbn
        end.
  intros H. right. split; [done|]. revert H.
  destruct (translate d f0) as [ty|e0] eqn:H0; cbn;
    [|intros [= <-]; apply translate_Raise in H0 as [-> ?]; eauto].
  destruct (for_each _ (re_findall re_const f1)) as [fl|e1] eqn:H1; cbn.
  2:{ intros [= <-]. apply for_each_Raise in H1 as (c & _ & Hc).
      apply translate_Raise in Hc as [-> ?]. eauto. }
  destruct (for_each _ (re_findall re_const f2)) as [pe|e2] eqn:H2; cbn.
  2:{ intros [= <-]. apply for_each_Raise in H2 as (c & _ & Hc).
      apply translate_Raise in Hc as [-> ?]. eauto. }
  unfold subscript. destruct (TRUSTEE !! f5) eqn:H5; cbn; [done|].
  intros [= <-]. eauto.
Qed.

(** The constructor of [ACE] raises [InvalidAceStringError] exactly for a
    string that does not split into six fields; any other exception is
    the [KeyError] of a code that is no key of the table passed in or of
    [TRUSTEE]. *)
Theorem ACE_init_exceptions s d :
  (ACE_init W s d = Raise InvalidAceStringError <->
   length (str_split ";" s) <> 6) /\
  (forall e, ACE_init W s d = Raise e ->
     e = InvalidAceStringError \/
     exists code, e = KeyError code /\
                  (d !! code = None \/ TRUSTEE !! code = None)).
Proof.
  split.
  - split.
    + intros [[_ ?]|(_ & c & ? & _)]%ACE_init_Raise_cause; done.
    + apply wrong_field_count_raises.
  - intros e [[-> _]|(_ & c & -> & ?)]%ACE_init_Raise_cause; eauto.
Qed.

(** An exception of the constructor of [SDDL] is the exception of one of
    its entries: the string has a parenthesised text for which the
    constructor of [ACE], with the table as the call leaves it, raises
    that exception.  So it is [InvalidAceStringError] or a [KeyError],
    never [AttributeError], [InvalidSddlTypeError] or
    [InvalidSddlStringError]. *)
Theorem SDDL_init_raises_for_an_entry s tgt d e :
  (SDDL_init W s tgt d).1 = Raise e ->
  (e = InvalidAceStringError \/ exists code, e = KeyError code) /\
  exists before perms tl,
    s = before +:+ "(" +:+ perms +:+ ")" +:+ tl /\
    ACE_init W perms (SDDL_init W s tgt d).2 = Raise e.
Proof.
  intros H.
  destruct (SDDL_init_by_sections W s tgt d)
    as (osid & oacc & gsid & gacc & _ & _ & [[_ Hs]|Hs]).
  { rewrite Hs in H. done. }
  destruct Hs as (before & x & body & tl & -> & _ & _ & _ & _ & Hs).
  rewrite Hs in H. clear Hs.
  destruct (for_each _ _) as [aces|e'] eqn:Hf; [done|].
  injection H as ->.
  apply for_each_Raise in Hf as (perms & Hin & Hp).
  split; [by apply ACE_init_Raise in Hp|].
  apply re_perms_findall_elem in Hin as (_ & _ & b' & tl' & Hb).
  exists (before +:+ b'), perms, (tl' +:+ tl). split; [|done].
  rewrite Hb. by rewrite !Str.app_assoc.
Qed.

(** What an object that the constructor of [SDDL] returns holds: the
    string and the target it was given; the owner and the group as
    [owner_of] and [group_of_string] say; no type and no entry, or the
    type "DACL" or "SACL"; and entries each built from a text in
    parentheses that is not empty, has no parenthesis and has six fields,
    with permissions in ascending order and a trustee that is not empty. *)
Theorem SDDL_init_returns s tgt d sd :
  (SDDL_init W s tgt d).1 = Ok sd ->
  sddl_string sd = s /\ target sd = tgt /\
  owner_of W s (owner_sid sd) (owner_account sd) /\
  group_of_string W s (group_sid sd) (group_account sd) /\
  ((sddl_type sd = None /\ acl sd = [] /\ re_search re_acl s = None) \/
   sddl_type sd = Some "DACL" \/ sddl_type sd = Some "SACL") /\
  Forall (fun a =>
            ace_string a <> "" /\
            str_all (none_of "()") (ace_string a) = true /\
            (exists before tl,
               s = before +:+ "(" +:+ ace_string a +:+ ")" +:+ tl) /\
            length (str_split ";" (ace_string a)) = 6 /\
            Sorted String.le (perms a) /\
            exists t, trustee a = Some t /\ t <> "")
         (acl sd).
Proof.
  intros H.
  destruct (SDDL_init_by_sections W s tgt d)
    as (osid & oacc & gsid & gacc & Ho & Hg & [[Hnone Hs]|Hs]).
  { rewrite Hs in H. injection H as <-. cbn.
    repeat split; [done..|by left|constructor]. }
  destruct Hs as (before & x & body & tl & Hstr & Hx & _ & _ & _ & Hs).
  rewrite Hs in H. clear Hs.
  destruct (for_each _ _) as [aces|e'] eqn:Hf; [|done].
  injection H as <-. cbn.
  repeat split; [done..| |].
  { right. apply one_of_DS in Hx as [-> | ->]; [by left|by right]. }
  apply for_each_Ok in Hf.
  apply Forall_forall. intros a Ha.
  apply list_elem_of_lookup_1 in Ha as [i Hi].
  destruct (Forall2_lookup_r _ _ _ _ _ Hf Hi) as (perms & Hin & Hp).
  apply list_elem_of_lookup_2 in Hin.
  apply re_perms_findall_elem in Hin as (Hne & Hall & b' & tl' & Hb).
  pose proof (ACE_init_perms_sorted W _ _ _ Hp) as Hsorted.
  pose proof (ACE_init_trustee W _ _ _ Hp) as Htr.
  apply ACE_init_Ok in Hp
    as (f0&f1&f2&f3&f4&f5&names&v&Hsp&_&_&_&_&_&_&Hstring&_).
  rewrite Hstring. repeat split; [done..| | |done|done].
  - exists (before +:+ b'), (tl' +:+ tl). rewrite Hstr, Hb.
    by rewrite !Str.app_assoc.
  - by rewrite Hsp.
Qed.

(** WMI is asked only about an owner or a group that is no key of
    [TRUSTEE].  The constructor of [ACE] never asks it; the account of an
    owner or group that is a key of [TRUSTEE] is its value there; and the
    account of any other is what [TranslateSid] gives, or "Unknown". *)
Theorem WMI_asked_only_for_unknown_owner (W' : string -> option (string * string)) :
  (forall s d, ACE_init W s d = ACE_init W' s d) /\
  (forall sid v, TRUSTEE !! sid = Some v -> account_of W sid = Ok (Some v)) /\
  (forall sid, TRUSTEE !! sid = None ->
     account_of W sid = Ok (Some (default "Unknown" (TranslateSid W sid)))).
Proof.
  split; [|split].
  - intros s d. unfold ACE_init.
    destruct (str_split ";" s) as [|f0 [|f1 [|f2 [|f3 [|f4 [|f5 [|]]]]]]];
      try reflexivity.
    destruct (translate d f0) as [ty|]; [|done]. cbn.
    destruct (for_each _ (re_findall re_const f1)) as [fl|]; [|done]. cbn.
    destruct (for_each _ (re_findall re_const f2)) as [pe|]; [|done]. cbn.
    unfold subscript. destruct (TRUSTEE !! f5) as [v|] eqn:H5; [|done]. cbn.
    rewrite (TRUSTEE_truthy _ _ H5). cbn. by rewrite (TRUSTEE_truthy _ _ H5).
  - intros sid v Hv.
    destruct (account_of_total W sid) as (n & -> & _ & Hn & _).
    by rewrite (Hn v Hv).
  - intros sid Hv.
    destruct (account_of_total W sid) as (n & -> & _ & _ & Hsome & Hnone).
    destruct (TranslateSid W sid) as [t|] eqn:Ht; cbn.
    + by rewrite (Hsome Hv t eq_refl).
    + by rewrite (Hnone Hv eq_refl).
Qed.

End Outcomes.

(** ** The comparison of two entries *)

Section Comparison.

Local Open Scope Z_scope.

Lemma compare_refl (t : string) : String.compare t t = Eq.
Proof.
  induction t as [|c t IH]; [done|]. cbn.
  unfold Ascii.compare. by rewrite N.compare_refl.
Qed.

Lemma cmp_le_iff (t u : string) : cmp (Some t) (Some u) <= 0 <-> String.le t u.
Proof.
  unfold String.le, String.leb. cbn.
  destruct (String.compare t u); cbn; split; intros H; try done; lia.
Qed.

(** [SortAceByTrustee] is a three-way comparison of the trustees alone:
    it is 0 exactly for equal trustees, changes its sign when its
    arguments are swapped, is transitive, takes the values -1, 0, 1, and
    on two trustees that are strings it is the byte-wise order. *)
Theorem SortAceByTrustee_is_an_order x y z :
  (SortAceByTrustee x y = 0 <-> trustee x = trustee y) /\
  SortAceByTrustee y x = - SortAceByTrustee x y /\
  (SortAceByTrustee x y <= 0 -> SortAceByTrustee y z <= 0 ->
   SortAceByTrustee x z <= 0) /\
  (SortAceByTrustee x y = -1 \/ SortAceByTrustee x y = 0 \/
   SortAceByTrustee x y = 1) /\
  (forall t u, trustee x = Some t -> trustee y = Some u ->
     (SortAceByTrustee x y <= 0 <-> String.le t u)).
Proof.
  unfold SortAceByTrustee.
  destruct (trustee x) as [t|], (trustee y) as [u|]; cbn.
  - split; [|split; [|split; [|split]]].
    + destruct (String.compare t u) eqn:Hc; split; try done.
      * intros _. by apply String.compare_eq_iff in Hc as ->.
      * intros [= ->]. rewrite compare_refl in Hc. done.
      * intros [= ->]. rewrite compare_refl in Hc. done.
    + rewrite (String.compare_antisym t u).
      by destruct (String.compare u t).
    + destruct (trustee z) as [v|]; cbn.
      * intros H1 H2.
        apply (cmp_le_iff t u) in H1. apply (cmp_le_iff u v) in H2.
        apply (cmp_le_iff t v). by etrans.
      * destruct (String.compare t u); intros; lia.
    + destruct (String.compare t u); auto.
    + intros t' u' [= <-] [= <-]. apply (cmp_le_iff t u).
  - repeat split; try done; try lia; auto;
      destruct (trustee z); cbn; try destruct (String.compare _ _); lia.
  - repeat split; try done; try lia; auto;
      destruct (trustee z); cbn; try destruct (String.compare _ _); lia.
  - repeat split; try done; try lia; auto;
      destruct (trustee z); cbn; try destruct (String.compare _ _); lia.
Qed.

End Comparison.

(** ** The module-level table over several calls *)

Section Tables.

Variable W : string -> option (string * string).

(** Assigning the service meanings twice is assigning them once. *)
Lemma service_assign_idemp d : service_assign (service_assign d) = service_assign d.
Proof.
  apply map_eq. intros k. rewrite !service_assign_lookup.
  by destruct (list_find _ _) as [[i kv]|].
Qed.

(** After any sequence of calls the module-level table is the one before
    them when no call had the target ['service'], and otherwise the one
    before them with the service meanings assigned: a call with another
    target never takes them back. *)
Theorem table_after_calls calls d :
  table_after W calls d =
  if existsb (fun call => bool_decide (call.2 = Some "service")) calls
  then service_assign d else d.
Proof.
  unfold table_after. revert d.
  induction calls as [|[s tgt] calls IH]; intros d; [done|].
  cbn [foldl existsb fst snd]. rewrite IH, SDDL_init_table.
  destruct (bool_decide (tgt = Some "service")); cbn [orb].
  - rewrite service_assign_idemp. by destruct (existsb _ _).
  - done.
Qed.

End Tables.

(** ** Fields, tokens and translations of an entry *)

Section Translations.

Variable W : string -> option (string * string).

Lemma translate_resolve d code name :
  translate d code = Ok name -> name = resolve d code.
Proof.
  unfold translate, subscript, resolve. destruct (d !! code); [|done].
  by intros [= <-].
Qed.

Lemma for_each_translate_resolve d codes names :
  for_each (translate d) codes = Ok names -> names = resolve d <$> codes.
Proof.
  intros H%for_each_Ok.
  induction H as [|c n cs ns Hc _ IH]; [done|].
  cbn. by rewrite IH, (translate_resolve _ _ _ Hc).
Qed.

Lemma for_each_translate_all_known d codes :
  Forall (fun code => is_Some (d !! code)) codes ->
  for_each (translate d) codes = Ok (resolve d <$> codes).
Proof.
  intros H. destruct (for_each_translate_known d codes H) as [names Hn].
  by rewrite Hn, (for_each_translate_resolve _ _ _ Hn).
Qed.

(** Cutting the join of fields that have no separator gives the fields. *)
Lemma str_split_concat sep f fs :
  Forall (fun f => str_mem sep f = false) (f :: fs) ->
  str_split sep (String.concat (String sep "") (f :: fs)) = f :: fs.
Proof.
  revert f. induction fs as [|g fs IH]; intros f Hall.
  - apply Forall_cons in Hall as [Hf _]. cbn [String.concat].
    induction f as [|c f IHf]; [done|]. cbn in Hf |- *.
    apply orb_false_iff in Hf as [Hc Hf]. rewrite Ascii.eqb_sym, Hc.
    by rewrite (IHf Hf).
  - apply Forall_cons in Hall as [Hf Hall]. rewrite concat_cons2.
    specialize (IH g Hall).
    induction f as [|c f IHf].
    + norm_app. cbn [str_split]. rewrite Ascii.eqb_refl. by rewrite IH.
    + cbn in Hf. apply orb_false_iff in Hf as [Hc Hf]. rewrite Str.app_cons.
      cbn [str_split]. rewrite Ascii.eqb_sym, Hc. by rewrite (IHf Hf).
Qed.

(** An entry string made of six fields without a semicolon, whose type,
    flag tokens and permission tokens are keys of the table and whose
    trustee is a key of [TRUSTEE], gives the entry that holds the string,
    the translated type, the translated flag tokens in their order, the
    translated permission tokens in ascending order, the fourth and the
    fifth field as they are, and the name of the trustee. *)
Theorem ACE_init_of_fields d f0 f1 f2 f3 f4 f5 v :
  Forall (fun f => str_mem ";" f = false) [f0; f1; f2; f3; f4; f5] ->
  is_Some (d !! f0) ->
  Forall (fun code => is_Some (d !! code)) (re_findall re_const f1) ->
  Forall (fun code => is_Some (d !! code)) (re_findall re_const f2) ->
  TRUSTEE !! f5 = Some v ->
  ACE_init W (String.concat ";" [f0; f1; f2; f3; f4; f5]) d =
    Ok (MkACE (String.concat ";" [f0; f1; f2; f3; f4; f5])
              (resolve d <$> re_findall re_const f1)
              (merge_sort String.le (resolve d <$> re_findall re_const f2))
              (resolve d f0) f3 f4 (Some v)).
Proof.
  intros Hsep H0 H1 H2 H5. unfold ACE_init.
  rewrite (str_split_concat ";" f0 _ Hsep).
  destruct (translate_known d f0 H0) as [ty Hty].
  rewrite Hty, (translate_resolve _ _ _ Hty). cbn.
  rewrite (for_each_translate_all_known d _ H1). cbn.
  rewrite (for_each_translate_all_known d _ H2). cbn.
  unfold subscript. rewrite H5. cbn.
  by repeat (rewrite (TRUSTEE_truthy _ _ H5); cbn).
Qed.

(** The order in which the permission codes are written does not show in
    the entry: when an entry is built from a string, a string that
    differs in its permission field only, with the same tokens in
    another order, gives an entry with the same type, flags, permissions,
    object types and trustee. *)
Theorem perms_order_is_forgotten s s' d a f0 f1 f2 f2' f3 f4 f5 :
  str_split ";" s = [f0; f1; f2; f3; f4; f5] ->
  str_split ";" s' = [f0; f1; f2'; f3; f4; f5] ->
  re_findall re_const f2 ≡ₚ re_findall re_const f2' ->
  ACE_init W s d = Ok a ->
  ACE_init W s' d =
    Ok (MkACE s' (flags a) (perms a) (ace_type a) (object_type a)
              (inherited_type a) (trustee a)).
Proof.
  intros Hs Hs' Hperm Ha.
  apply ACE_init_Ok in Ha
    as (g0&g1&g2&g3&g4&g5&names&v&Hsp&H0&H1&H2&Hp&H3&H4&_&H5&Ht).
  rewrite Hs in Hsp. injection Hsp as <- <- <- <- <- <-.
  unfold ACE_init. rewrite Hs', H0, H1. cbn.
  pose proof (for_each_translate_Ok _ _ _ H2) as Hknown.
  rewrite Hperm in Hknown.
  rewrite (for_each_translate_all_known d _ Hknown). cbn.
  unfold subscript. rewrite H5. cbn.
  repeat (rewrite (TRUSTEE_truthy _ _ H5); cbn).
  rewrite Hp, H3, H4, Ht. do 2 f_equal.
  rewrite (for_each_translate_resolve _ _ _ H2).
  apply (Sorted_unique String.le).
  - apply (Sorted_merge_sort String.le).
  - apply (Sorted_merge_sort String.le).
  - rewrite !merge_sort_Permutation. by rewrite Hperm.
Qed.

End Translations.

(** ** A descriptor with an owner, a group and an ACL *)

Section WellFormed.

Variable W : string -> option (string * string).

Lemma starts_section_miss_group pos s :
  starts_section (Ascii.eqb "G") s = false ->
  rmatch re_group (MState pos s None) Some = None.
Proof.
  intros Hs. destruct (rmatch _ _ _) as [st|] eqn:H; [|done].
  apply re_group_rmatch in H as (body & x & rest & -> & _).
  norm_app_in Hs. done.
Qed.

Lemma starts_section_miss_acl pos s :
  starts_section (one_of "DS") s = false ->
  rmatch re_acl (MState pos s None) Some = None.
Proof.
  intros Hs. destruct (rmatch _ _ _) as [st|] eqn:H; [|done].
  apply re_acl_rmatch in H as (x & rest & -> & Hx).
  cbn in Hs. by rewrite Hx in Hs.
Qed.

(** A search for a pattern that only matches at the start of a section
    passes over a prefix in which no such section starts. *)
Lemma search_from_no_section r l subject pos pre rest :
  (forall pos s, starts_section l s = false ->
     rmatch r (MState pos s None) Some = None) ->
  no_section l pre rest = true ->
  search_from r subject pos (pre +:+ rest)
    = search_from r subject (pos + String.length pre) rest.
Proof.
  intros Hmiss. revert pos. induction pre as [|c pre IH]; intros pos Hno.
  - norm_app. cbn. by rewrite Nat.add_0_r.
  - cbn [no_section] in Hno. apply andb_true_iff in Hno as [Hc Hno].
    apply negb_true_iff in Hc. norm_app.
    rewrite search_from_miss by by apply Hmiss.
    rewrite IH by done. cbn [String.length].
    by replace (S pos + String.length pre)
      with (pos + S (String.length pre)) by lia.
Qed.

Lemma no_section_app l a b rest :
  no_section l (a +:+ b) rest
    = no_section l a (b +:+ rest) && no_section l b rest.
Proof.
  induction a as [|c a IH]; [done|]. norm_app. cbn [no_section].
  by rewrite IH, Str.app_assoc, andb_assoc.
Qed.

(** No section starts in a run without a colon that something other than
    a colon follows. *)
Lemma no_section_run l body rest :
  str_all (none_of ":()") body = true ->
  stops (Ascii.eqb ":") rest = true ->
  no_section l body rest = true.
Proof.
  intros Hall Hst. induction body as [|c body IH]; [done|].
  cbn [str_all] in Hall. apply andb_true_iff in Hall as [_ Hall].
  cbn [no_section]. rewrite (IH Hall), andb_true_r. apply negb_true_iff.
  unfold starts_section. destruct body as [|c' body'].
  - norm_app. destruct rest as [|c2 rest']; [done|]. unfold stops in Hst.
    apply negb_true_iff in Hst. rewrite Ascii.eqb_sym, Hst.
    by rewrite andb_false_r.
  - norm_app. cbn [str_all] in Hall. apply andb_true_iff in Hall as [Hc' _].
    assert (Ascii.eqb c' ":" = false) as ->; [|by rewrite andb_false_r].
    destruct (Ascii.eqb_spec c' ":") as [->|]; [by vm_compute in Hc'|done].
Qed.

(** Nor in a label, its colon and such a run, when the label is not of
    the class. *)
Lemma no_section_labelled l c body rest :
  l c = false -> l ":"%char = false ->
  str_all (none_of ":()") body = true ->
  stops (Ascii.eqb ":") rest = true ->
  no_section l (String c (String ":" body)) rest = true.
Proof.
  intros Hc Hcolon Hall Hst. cbn [no_section].
  rewrite (no_section_run l body rest Hall Hst), andb_true_r.
  unfold starts_section. norm_app. rewrite Hc. cbn.
  destruct (body +:+ rest); [done|]. by rewrite Hcolon.
Qed.

Lemma DGS_in_run x : one_of "DGS" x = true -> none_of ":()" x = true.
Proof.
  unfold one_of. intros H%bool_decide_eq_true_1. cbn in H.
  repeat (apply elem_of_cons in H as [->|H]; [done|]).
  by apply elem_of_nil in H.
Qed.

Lemma DOS_in_run x : one_of "DOS" x = true -> none_of ":()" x = true.
Proof.
  unfold one_of. intros H%bool_decide_eq_true_1. cbn in H.
  repeat (apply elem_of_cons in H as [->|H]; [done|]).
  by apply elem_of_nil in H.
Qed.

(** The run of an owner or a group section ends one character before
    the colon of the section that follows. *)
Lemma run_then_ahead_hit q pos g body x rest :
  body <> "" -> str_all (none_of ":()") body = true ->
  none_of ":()" x = true -> q x = true -> q ":"%char = false ->
  rmatch (Cat (Plus (none_of ":()")) (Ahead (Cat (Cls q) (lit ":"))))
         (MState pos (body +:+ String x (String ":" rest)) g) Some
    = Some (MState (pos + String.length body) (String x (String ":" rest)) g).
Proof.
  intros Hne Hall Hx Hq Hcolon. cbn [rmatch m_pos m_rest m_grp].
  apply plus_loop_back_one; [done..| |].
  - unfold one_char. cbn. by rewrite Hcolon.
  - unfold one_char. cbn. by rewrite Hq.
Qed.

(** An "O:" section that a "D:", "G:" or "S:" follows is found. *)
Lemma re_owner_hit o x rest :
  o <> "" -> str_all (none_of ":()") o = true -> one_of "DGS" x = true ->
  exists m,
    re_search re_owner ("O:" +:+ o +:+ String x (String ":" rest)) = Some m /\
    group m = "O:" +:+ o.
Proof.
  intros Hne Hall Hx. eexists. split.
  - unfold re_search. apply search_from_hit.
    norm_app.
    transitivity
      (rmatch (Cat (Plus (none_of ":()"))
                   (Ahead (Cat (Cls (one_of "DGS")) (lit ":"))))
              (MState 2 (o +:+ String x (String ":" rest)) None) Some);
      [reflexivity|].
    apply (run_then_ahead_hit (one_of "DGS")); [done..|by apply DGS_in_run|done|done].
  - unfold group. cbn [mo_start mo_end mo_subject m_pos].
    replace (2 + String.length o - 0) with (String.length ("O:" +:+ o))
      by (rewrite Str.length_app; cbn; lia).
    rewrite <- Str.app_assoc. apply Str.substring_prefix.
Qed.

(** A "G:" section that a "D:", "O:" or "S:" follows is found when no
    "G:" starts before it. *)
Lemma re_group_hit pre g x rest :
  no_section (Ascii.eqb "G") pre ("G:" +:+ g +:+ String x (String ":" rest))
    = true ->
  g <> "" -> str_all (none_of ":()") g = true -> one_of "DOS" x = true ->
  exists m,
    re_search re_group (pre +:+ "G:" +:+ g +:+ String x (String ":" rest))
      = Some m /\
    group m = "G:" +:+ g.
Proof.
  intros Hno Hne Hall Hx. eexists. split.
  - unfold re_search.
    rewrite (search_from_no_section re_group (Ascii.eqb "G"));
      [|apply starts_section_miss_group|done].
    apply search_from_hit.
    norm_app.
    transitivity
      (rmatch (Cat (Plus (none_of ":()"))
                   (Ahead (Cat (Cls (one_of "DOS")) (lit ":"))))
              (MState (S (S (0 + String.length pre)))
                      (g +:+ String x (String ":" rest)) None) Some);
      [reflexivity|].
    apply (run_then_ahead_hit (one_of "DOS")); [done..|by apply DOS_in_run|done|done].
  - unfold group. cbn [mo_start mo_end mo_subject m_pos].
    replace (S (S (0 + String.length pre)) + String.length g
             - (0 + String.length pre))
      with (String.length ("G:" +:+ g)) by (rewrite Str.length_app; cbn; lia).
    rewrite <- (Str.app_assoc "G:"). apply Str.substring_middle.
Qed.

(** A "D:" or "S:" with a text after it that has no line feed is found,
    up to the end of the string, when no "D:" or "S:" starts before it. *)
Lemma re_acl_hit pre x body :
  no_section (one_of "DS") pre (String x (String ":" body)) = true ->
  one_of "DS" x = true -> body <> "" -> str_all dot body = true ->
  exists m,
    re_search re_acl (pre +:+ String x (String ":" body)) = Some m /\
    group m = String x (String ":" body).
Proof.
  intros Hno Hx Hne Hall. eexists. split.
  - unfold re_search.
    rewrite (search_from_no_section re_acl (one_of "DS"));
      [|apply starts_section_miss_acl|done].
    apply search_from_hit.
    unfold re_acl, cat_all. cbn [rmatch]. unfold one_char at 1.
    cbn [m_rest m_pos m_grp]. rewrite Hx.
    transitivity
      (plus_loop dot (fun st => if at_eol (m_rest st) then Some st else None)
                 (S (S (0 + String.length pre))) None (body +:+ ""));
      [by rewrite Str.app_nil_r|].
    apply plus_loop_longest; [done..|]. by cbn.
  - unfold group. cbn [mo_start mo_end mo_subject m_pos].
    rewrite <- (Str.app_nil_r (String x (String ":" body))) at 1.
    change (0 + String.length pre) with (String.length pre).
    match goal with
    | |- String.substring _ ?n _ = _ =>
        replace n with (String.length (String x (String ":" body)))
          by (cbn; lia)
    end.
    apply Str.substring_middle.
Qed.

Lemma findall_from_miss r subject pos c s :
  rmatch r (MState pos (String c s) None) Some = None ->
  findall_from r subject 0 pos (String c s)
    = findall_from r subject 0 (S pos) s.
Proof. intros H. cbn [findall_from]. by rewrite H. Qed.

Lemma findall_from_skip r subject pos a b :
  findall_from r subject (String.length a) pos (a +:+ b)
    = findall_from r subject 0 (pos + String.length a) b.
Proof.
  revert pos. induction a as [|c a IH]; intros pos.
  - norm_app. cbn [String.length]. by rewrite Nat.add_0_r.
  - norm_app. cbn [String.length findall_from]. rewrite IH.
    by replace (S pos + String.length a) with (pos + S (String.length a))
      by lia.
Qed.

(** A text in parentheses that is not empty and has no parenthesis is
    matched by [re_perms], with the text as the group. *)
Lemma re_perms_hit pos e rest :
  e <> "" -> str_all (none_of "()") e = true ->
  rmatch re_perms (MState pos ("(" +:+ e +:+ ")" +:+ rest) None) Some
    = Some (MState (S (S pos + String.length e)) rest
                   (Some (S pos, S pos + String.length e))).
Proof.
  intros Hne Hall. unfold re_perms, cat_all, lit. norm_app.
  cbn [rmatch]. unfold one_char at 1. cbn [m_rest m_pos m_grp].
  rewrite Ascii.eqb_refl.
  apply plus_loop_longest; [done..|by cbn|].
  cbn [m_pos m_rest m_grp]. unfold one_char. cbn [m_rest m_pos m_grp].
  by rewrite Ascii.eqb_refl.
Qed.

(** [re.findall(re_perms, ...)] on the texts of entries in parentheses,
    one after the other, lists the texts in their order. *)
Lemma findall_entries pre es :
  Forall (fun e => e <> "" /\ str_all (none_of "()") e = true) es ->
  findall_from re_perms (pre +:+ entries_text es) 0 (String.length pre)
               (entries_text es) = es.
Proof.
  intros Hall. revert pre. induction Hall as [|e es [Hne He] _ IH]; intros pre.
  - cbn [entries_text findall_from]. done.
  - cbn [entries_text].
    assert (("(" +:+ e +:+ ")" +:+ entries_text es)
            = String "(" ((e +:+ ")") +:+ entries_text es)) as Hshape
      by (norm_app; by rewrite Str.snoc_app).
    rewrite Hshape at 2. cbn [findall_from].
    rewrite <- Hshape. rewrite (re_perms_hit _ e _ Hne He).
    cbn [m_pos m_grp]. f_equal.
    + unfold findall_item. cbn [has_group re_perms cat_all lit orb].
      cbn [mo_end mo_subject m_grp].
      replace (S (String.length pre) + String.length e - S (String.length pre))
        with (String.length e) by lia.
      replace (S (String.length pre)) with (String.length (pre +:+ "("))
        by (rewrite Str.length_app; cbn; lia).
      rewrite <- (Str.app_assoc pre "("). apply Str.substring_middle.
    + replace (S (S (String.length pre) + String.length e)
               - String.length pre - 1)
        with (String.length (e +:+ ")")) by (rewrite Str.length_app; cbn; lia).
      rewrite findall_from_skip.
      specialize (IH (pre +:+ "(" +:+ e +:+ ")")).
      rewrite !Str.app_assoc in IH. norm_app_in IH.
      rewrite !Str.length_app in IH. cbn [String.length] in IH.
      rewrite Str.length_app. cbn [String.length].
      replace (S (String.length pre) + (String.length e + 1))
        with (String.length pre + S (String.length e + 1)) by lia.
      norm_app. rewrite Str.length_app in IH. exact IH.
Qed.

Lemma findall_acl_entries x es :
  one_of "DS" x = true ->
  Forall (fun e => e <> "" /\ str_all (none_of "()") e = true) es ->
  re_findall re_perms (String x (String ":" (entries_text es))) = es.
Proof.
  intros Hx Hall. unfold re_findall.
  rewrite findall_from_miss.
  2:{ unfold re_perms, cat_all, lit. cbn [rmatch]. unfold one_char.
      cbn [m_rest]. apply one_of_DS in Hx as [-> | ->]; done. }
  rewrite findall_from_miss by done.
  exact (findall_entries (String x ":") es Hall).
Qed.

Lemma entries_text_dot es :
  Forall (fun e => str_all dot e = true) es ->
  str_all dot (entries_text es) = true.
Proof.
  induction 1 as [|e es He _ IH]; [done|]. cbn [entries_text].
  norm_app. cbn [str_all]. rewrite str_all_app. cbn [str_all].
  by rewrite He, IH.
Qed.

Lemma entries_text_nonempty es : es <> [] -> entries_text es <> "".
Proof. destruct es; [done|]. cbn [entries_text]. by norm_app. Qed.

(** A descriptor written as an owner, a group and an ACL: "O:" and a
    code, "G:" and a code, "D:" or "S:", and one entry or more in
    parentheses.  When the codes are not empty and have no colon and no
    parenthesis, and the entries are not empty and have no parenthesis
    and no line feed, the constructor sets the owner and the group to the
    two codes with their accounts, the type by the letter, and builds the
    entries in their order with the table as the call leaves it. *)
Theorem SDDL_init_of_owner_group_acl o g x es tgt d :
  o <> "" -> str_all (none_of ":()") o = true ->
  g <> "" -> str_all (none_of ":()") g = true ->
  one_of "DS" x = true -> es <> [] ->
  Forall (fun e => e <> "" /\ str_all (none_of "()") e = true) es ->
  Forall (fun e => str_all dot e = true) es ->
  exists oname gname,
    account_of W o = Ok (Some oname) /\ account_of W g = Ok (Some gname) /\
    (SDDL_init W ("O:" +:+ o +:+ "G:" +:+ g +:+
                  String x (String ":" (entries_text es))) tgt d).1 =
      aces ← for_each
               (fun perms =>
                  ACE_init W perms
                    (if bool_decide (tgt = Some "service")
                     then service_assign d else d))
               es;
      Ok (MkSDDL tgt
                 ("O:" +:+ o +:+ "G:" +:+ g +:+
                  String x (String ":" (entries_text es)))
                 (Some (acl_name x)) aces (Some g) (Some gname)
                 (Some o) (Some oname)).
Proof.
  intros Ho Hoall Hg Hgall Hx Hes Hall Hdot.
  set (body := entries_text es).
  set (s := "O:" +:+ o +:+ "G:" +:+ g +:+ String x (String ":" body)).
  assert (x <> ":"%char) as Hxc
    by (apply one_of_DS in Hx as [-> | ->]; done).
  assert (one_of "DOS" x = true) as Hx'
    by (apply one_of_DS in Hx as [-> | ->]; done).
  assert (no_section (Ascii.eqb "G") ("O:" +:+ o)
            ("G:" +:+ g +:+ String x (String ":" body)) = true) as Hno1.
  { norm_app. apply no_section_labelled; [done..|]. by norm_app. }
  assert (no_section (one_of "DS") (("O:" +:+ o) +:+ ("G:" +:+ g))
            (String x (String ":" body)) = true) as Hno2.
  { rewrite no_section_app. apply andb_true_iff. split.
    - norm_app. apply no_section_labelled; [done..|]. by norm_app.
    - norm_app. apply no_section_labelled; [done..|].
      unfold stops. apply negb_true_iff.
      destruct (Ascii.eqb_spec ":" x); [by subst|done]. }
  destruct (re_owner_hit o "G" (g +:+ String x (String ":" body))
              Ho Hoall eq_refl) as (mo & Hmo & Hgo).
  destruct (re_group_hit ("O:" +:+ o) g x body Hno1 Hg Hgall Hx')
    as (mg & Hmg & Hgg).
  destruct (re_acl_hit (("O:" +:+ o) +:+ ("G:" +:+ g)) x body Hno2 Hx
              (entries_text_nonempty es Hes) (entries_text_dot es Hdot))
    as (ma & Hma & Hga).
  assert (("O:" +:+ o) +:+ "G:" +:+ g +:+ String x (String ":" body) = s)
    as Hs1 by (unfold s; by rewrite !Str.app_assoc).
  assert ((("O:" +:+ o) +:+ ("G:" +:+ g)) +:+ String x (String ":" body) = s)
    as Hs2 by (unfold s; by rewrite !Str.app_assoc).
  rewrite Hs1 in Hmg. rewrite Hs2 in Hma.
  change ("O:" +:+ o +:+ String "G" (String ":" (g +:+ String x (String ":" body))))
    with s in Hmo.
  set (self := MkSDDL tgt s None [] None None None None).
  set (d' := if bool_decide (tgt = Some "service") then service_assign d else d).
  destruct (SDDL_part_owner W d' self mo o Ho Hoall Hgo)
    as (oname & Hoacc & _ & Hpo).
  match type of Hpo with _ = Ok ?self1 =>
    destruct (SDDL_part_group W d' self1 mg g Hg Hgall Hgg)
      as (gname & Hgacc & _ & Hpg)
  end.
  exists oname, gname. split; [done|]. split; [done|].
  unfold SDDL_init. cbn [fst SDDL_loop]. fold s. fold d' self.
  rewrite Hmo, Hmg, Hma, Hpo. cbn [mbind res_bind]. rewrite Hpg.
  cbn [mbind res_bind].
  rewrite (SDDL_part_acl W d' _ ma x body Hx Hga).
  unfold body at 1. rewrite (findall_acl_entries x es Hx Hall).
  cbn [target sddl_string sddl_type acl group_sid group_account
       owner_sid owner_account self app].
  by destruct (for_each _ es).
Qed.

Lemma no_colon_no_paren c :
  none_of ":()" c = true ->
  none_of "()" c = true /\ Ascii.eqb ":" c = false.
Proof.
  intros H.
  destruct (Ascii.eqb_spec ":" c) as [<-|Hc]; [by vm_compute in H|].
  split; [|done]. unfold none_of, one_of in *.
  apply negb_true_iff, bool_decide_eq_false in H.
  apply negb_true_iff, bool_decide_eq_false.
  cbn in *. intros Hin. apply H. by right.
Qed.

Lemma str_all_no_colon e :
  str_all (none_of ":()") e = true ->
  str_all (none_of "()") e = true /\ str_mem ":" e = false.
Proof.
  induction e as [|c e IH]; [done|]. cbn [str_all str_mem].
  intros [Hc He]%andb_true_iff.
  destruct (no_colon_no_paren c Hc) as [-> ->]. by destruct (IH He) as [-> ->].
Qed.

Lemma entries_text_no_colon es :
  Forall (fun e => str_mem ":" e = false) es ->
  str_mem ":" (entries_text es) = false.
Proof.
  induction 1 as [|e es He _ IH]; [done|]. cbn [entries_text].
  norm_app. cbn [str_mem]. rewrite Str.mem_app. cbn [str_mem].
  by rewrite He, IH.
Qed.

Lemma SDDL_part_None d self : SDDL_part W d self None = Ok self.
Proof. reflexivity. Qed.

(** A descriptor that is an ACL alone: "D:" or "S:" and one entry or
    more in parentheses.  When the entries are not empty and have no
    colon, no parenthesis and no line feed, the constructor leaves the
    owner and the group unset, sets the type by the letter and builds the
    entries in their order with the table as the call leaves it. *)
Theorem SDDL_init_of_acl x es tgt d :
  one_of "DS" x = true -> es <> [] ->
  Forall (fun e => e <> "" /\ str_all (none_of ":()") e = true) es ->
  Forall (fun e => str_all dot e = true) es ->
  (SDDL_init W (String x (String ":" (entries_text es))) tgt d).1 =
    aces ← for_each
             (fun perms =>
                ACE_init W perms
                  (if bool_decide (tgt = Some "service")
                   then service_assign d else d))
             es;
    Ok (MkSDDL tgt (String x (String ":" (entries_text es)))
               (Some (acl_name x)) aces None None None None).
Proof.
  intros Hx Hes Hall Hdot.
  set (body := entries_text es).
  set (s := String x (String ":" body)).
  assert (Forall (fun e => e <> "" /\ str_all (none_of "()") e = true) es)
    as Hall'.
  { eapply Forall_impl; [exact Hall|]. intros e [? He].
    split; [done|]. by apply str_all_no_colon in He as [? _]. }
  assert (str_mem ":" body = false) as Hcolon.
  { apply entries_text_no_colon. eapply Forall_impl; [exact Hall|].
    intros e [_ He]. by apply str_all_no_colon in He as [_ ?]. }
  assert (re_search re_owner s = None) as Hmo.
  { destruct (re_search re_owner s) as [m|] eqn:H; [|done].
    apply re_owner_search in H as (o & x' & rest & H & _).
    unfold s in H. norm_app_in H. injection H as -> _.
    apply one_of_DS in Hx as [? | ?]; done. }
  assert (re_search re_group s = None) as Hmg.
  { destruct (re_search re_group s) as [m|] eqn:H; [|done].
    apply re_group_search in H as (before & g & x' & rest & H & _).
    unfold s in H. destruct before as [|a [|b before]]; norm_app_in H.
    - injection H as -> _. apply one_of_DS in Hx as [? | ?]; done.
    - by injection H as _ ?.
    - injection H as _ _ H. rewrite H, Str.mem_app in Hcolon.
      cbn in Hcolon. rewrite orb_true_r in Hcolon. done. }
  destruct (re_acl_hit "" x body eq_refl Hx
              (entries_text_nonempty es Hes) (entries_text_dot es Hdot))
    as (ma & Hma & Hga).
  change ("" +:+ String x (String ":" body)) with s in Hma.
  unfold SDDL_init. cbn [fst SDDL_loop]. fold body. fold s.
  rewrite Hmo, Hmg, Hma.
  set (d' := if bool_decide (tgt = Some "service") then service_assign d else d).
  repeat (rewrite SDDL_part_None; cbn [mbind res_bind]).
  rewrite (SDDL_part_acl W d' _ ma x body Hx Hga).
  unfold body at 1. rewrite (findall_acl_entries x es Hx Hall').
  cbn [target sddl_string sddl_type acl group_sid group_account
       owner_sid owner_account app].
  by destruct (for_each _ es).
Qed.

End WellFormed.

(** ** The two meanings of FA *)

Section FailedAccess.

Variable W : string -> option (string * string).

Lemma ACCESS_values k v :
  ACCESS !! k = Some v -> truthy v = true /\ v <> "FAILED_ACCESS".
Proof.
  intros H. apply dict_of_lookup_Some in H as Hin. revert Hin.
  assert (Forall (fun kv => truthy kv.2 = true /\
                            (kv.2 = "FAILED_ACCESS" -> kv.1 = "FA"))
                 ACCESS_items) as Hall
    by (repeat constructor; done).
  rewrite Forall_forall in Hall. intros Hin.
  destruct (Hall _ Hin) as [Ht Hfa]. split; [done|].
  intros ->. cbn in Hfa. rewrite (Hfa eq_refl) in H. by vm_compute in H.
Qed.

Lemma service_values d k v :
  (forall k v, d !! k = Some v -> truthy v = true /\ v <> "FAILED_ACCESS") ->
  service_assign d !! k = Some v -> truthy v = true /\ v <> "FAILED_ACCESS".
Proof.
  intros Hd. rewrite service_assign_lookup.
  destruct (list_find _ _) as [[i [k' v']]|] eqn:Hf; [|apply Hd].
  apply list_find_Some in Hf as (Hi & _ & _).
  apply list_elem_of_lookup_2, elem_of_reverse in Hi. cbn. intros [= <-].
  assert (Forall (fun kv => truthy kv.2 = true /\ kv.2 <> "FAILED_ACCESS")
                 service_items) as Hall
    by (repeat constructor; done).
  rewrite Forall_forall in Hall. exact (Hall _ Hi).
Qed.

(** The display of [ACCESS] gives FA two meanings and the second one
    stays: whatever calls came before, FA is translated to
    "FILE_ALL_ACCESS", and no entry that is built has "FAILED_ACCESS" as
    its type, among its flags or among its permissions. *)
Theorem FAILED_ACCESS_is_never_shown calls s a :
  ACE_init W s (table_after W calls ACCESS) = Ok a ->
  translate (table_after W calls ACCESS) "FA" = Ok "FILE_ALL_ACCESS" /\
  ace_type a <> "FAILED_ACCESS" /\
  ("FAILED_ACCESS" ∉ flags a) /\ ("FAILED_ACCESS" ∉ perms a).
Proof.
  intros Ha. set (d := table_after W calls ACCESS) in *.
  assert (forall k v, d !! k = Some v ->
                      truthy v = true /\ v <> "FAILED_ACCESS") as Hd.
  { unfold d. rewrite table_after_calls. destruct (existsb _ _).
    - intros k v. apply service_values, ACCESS_values.
    - apply ACCESS_values. }
  assert (forall code name, translate d code = Ok name ->
                            name <> "FAILED_ACCESS") as Htr.
  { intros code name. unfold translate, subscript.
    destruct (d !! code) as [v|] eqn:Hv; [|done]. cbn.
    destruct (Hd _ _ Hv) as [-> ?]. by intros [= <-]. }
  split.
  { unfold d. rewrite table_after_calls. by destruct (existsb _ _). }
  apply ACE_init_Ok in Ha
    as (f0&f1&f2&f3&f4&f5&names&v&_&H0&H1&H2&Hp&_).
  split; [by apply (Htr _ _ H0)|].
  assert (forall codes ns, for_each (translate d) codes = Ok ns ->
                           "FAILED_ACCESS" ∉ ns) as Hfe.
  { intros codes ns H%for_each_Ok.
    induction H as [|c n cs ns' Hc _ IH]; [by apply not_elem_of_nil|].
    apply not_elem_of_cons. split; [|done].
    intros <-. by apply (Htr _ _ Hc). }
  split; [by apply (Hfe _ _ H1)|].
  rewrite Hp, merge_sort_Permutation. by apply (Hfe _ _ H2).
Qed.

End FailedAccess.

(** ** The further theorems at concrete inputs *)

Lemma SDDL_init_raises_for_an_entry_witness :
  (InvalidAceStringError = InvalidAceStringError \/
   exists code, InvalidAceStringError = KeyError code) /\
  exists before perms tl,
    "D:(A;;RC;;;BU;EXTRA)" = before +:+ "(" +:+ perms +:+ ")" +:+ tl /\
    ACE_init no_account perms
      (SDDL_init no_account "D:(A;;RC;;;BU;EXTRA)" None ACCESS).2
      = Raise InvalidAceStringError.
Proof.
  apply (SDDL_init_raises_for_an_entry no_account "D:(A;;RC;;;BU;EXTRA)"
           None ACCESS InvalidAceStringError).
  by vm_compute.
Defined.

Lemma SDDL_init_returns_witness :
  owner_of no_account "O:BAG:SYD:(A;;RP;;;BU)"
           (Some "BA") (Some "Administrators") /\
  group_of_string no_account "O:BAG:SYD:(A;;RP;;;BU)"
           (Some "SY") (Some "Local System").
Proof.
  destruct (SDDL_init_returns no_account "O:BAG:SYD:(A;;RP;;;BU)" None ACCESS
              (MkSDDL None "O:BAG:SYD:(A;;RP;;;BU)" (Some "DACL")
                 [MkACE "A;;RP;;;BU" [] ["DS_READ_PROP"] "ACCESS_ALLOWED"
                        "" "" (Some "Users")]
                 (Some "SY") (Some "Local System")
                 (Some "BA") (Some "Administrators")))
    as (_ & _ & Ho & Hg & _); [by vm_compute|].
  exact (conj Ho Hg).
Defined.

Lemma ACE_init_of_fields_witness :
  ACE_init no_account "OA;CIIO;WPRP;bf967aba;bf967a86;BA" ACCESS =
    Ok (MkACE "OA;CIIO;WPRP;bf967aba;bf967a86;BA"
              ["CONTAINER_INHERIT"; "INHERIT_ONLY"]
              ["DS_READ_PROP"; "DS_WRITE_PROP"]
              "ACCESS_ALLOWED_OBJECT" "bf967aba" "bf967a86"
              (Some "Administrators")).
Proof.
  assert (Forall (fun f => str_mem ";" f = false)
            ["OA"; "CIIO"; "WPRP"; "bf967aba"; "bf967a86"; "BA"]) as Hsep
    by (repeat constructor).
  assert (is_Some (ACCESS !! "OA")) as H0 by (vm_compute; eauto).
  assert (Forall (fun code => is_Some (ACCESS !! code))
            (re_findall re_const "CIIO")) as H1
    by (repeat constructor; vm_compute; eauto).
  assert (Forall (fun code => is_Some (ACCESS !! code))
            (re_findall re_const "WPRP")) as H2
    by (repeat constructor; vm_compute; eauto).
  assert (TRUSTEE !! "BA" = Some "Administrators") as H5 by (by vm_compute).
  pose proof (ACE_init_of_fields no_account ACCESS
                "OA" "CIIO" "WPRP" "bf967aba" "bf967a86" "BA"
                "Administrators" Hsep H0 H1 H2 H5) as H.
  etrans; [exact H|]. by vm_compute.
Defined.

Lemma perms_order_is_forgotten_witness :
  ACE_init no_account "A;;WPRP;;;BU" ACCESS =
    Ok (MkACE "A;;WPRP;;;BU" [] ["DS_READ_PROP"; "DS_WRITE_PROP"]
              "ACCESS_ALLOWED" "" "" (Some "Users")).
Proof.
  apply (perms_order_is_forgotten no_account "A;;RPWP;;;BU" "A;;WPRP;;;BU"
           ACCESS
           (MkACE "A;;RPWP;;;BU" [] ["DS_READ_PROP"; "DS_WRITE_PROP"]
                  "ACCESS_ALLOWED" "" "" (Some "Users"))
           "A" "" "RPWP" "WPRP" "" "" "BU").
  - reflexivity.
  - reflexivity.
  - change (["RP"; "WP"] ≡ₚ ["WP"; "RP"]). apply perm_swap.
  - by vm_compute.
Defined.

Lemma SDDL_init_of_owner_group_acl_witness :
  exists oname gname,
    account_of no_account "BA" = Ok (Some oname) /\
    account_of no_account "S-1-5-32-544" = Ok (Some gname) /\
    (SDDL_init no_account
       ("O:" +:+ "BA" +:+ "G:" +:+ "S-1-5-32-544" +:+
        String "D" (String ":" (entries_text ["A;;RP;;;BU"; "D;;WP;;;AU"])))
       None ACCESS).1 =
      aces ← for_each
               (fun perms =>
                  ACE_init no_account perms
                    (if bool_decide (None = Some "service")
                     then service_assign ACCESS else ACCESS))
               ["A;;RP;;;BU"; "D;;WP;;;AU"];
      Ok (MkSDDL None
                 ("O:" +:+ "BA" +:+ "G:" +:+ "S-1-5-32-544" +:+
                  String "D" (String ":"
                    (entries_text ["A;;RP;;;BU"; "D;;WP;;;AU"])))
                 (Some (acl_name "D")) aces (Some "S-1-5-32-544")
                 (Some gname) (Some "BA") (Some oname)).
Proof.
  apply (SDDL_init_of_owner_group_acl no_account "BA" "S-1-5-32-544" "D"
           ["A;;RP;;;BU"; "D;;WP;;;AU"] None ACCESS).
  - done.
  - reflexivity.
  - done.
  - reflexivity.
  - reflexivity.
  - done.
  - repeat constructor; done.
  - repeat constructor.
Defined.

Lemma SDDL_init_of_acl_witness :
  (SDDL_init no_account
     (String "S" (String ":" (entries_text ["AU;SA;RC;;;WD"]))) None ACCESS).1 =
    aces ← for_each
             (fun perms =>
                ACE_init no_account perms
                  (if bool_decide (None = Some "service")
                   then service_assign ACCESS else ACCESS))
             ["AU;SA;RC;;;WD"];
    Ok (MkSDDL None (String "S" (String ":" (entries_text ["AU;SA;RC;;;WD"])))
               (Some (acl_name "S")) aces None None None None).
Proof.
  apply (SDDL_init_of_acl no_account "S" ["AU;SA;RC;;;WD"] None ACCESS).
  - reflexivity.
  - done.
  - repeat constructor; done.
  - repeat constructor.
Defined.

Lemma FAILED_ACCESS_is_never_shown_witness :
  translate (table_after no_account [] ACCESS) "FA" = Ok "FILE_ALL_ACCESS" /\
  "SYSTEM_AUDIT" <> "FAILED_ACCESS" /\
  ("FAILED_ACCESS" ∉ ["FILE_ALL_ACCESS"]) /\
  ("FAILED_ACCESS" ∉ ["READ_CONTROL"]).
Proof.
  apply (FAILED_ACCESS_is_never_shown no_account [] "AU;FA;RC;;;WD"
           (MkACE "AU;FA;RC;;;WD" ["FILE_ALL_ACCESS"] ["READ_CONTROL"]
                  "SYSTEM_AUDIT" "" "" (Some "Everyone"))).
  by vm_compute.
Defined.
